(** * Strategy engine of shorttrack-analytics: a shallow embedding

    The functions below are translated from [src/lib/strategy.ts]
    (threat evaluation, pace planning, lap plan, matchup insights, synthetic
    skaters, win probability and the [generateStrategy] orchestrator).

    Numbers.  A JavaScript [number] is embedded as an exact rational ([Q]);
    the one transcendental step, [Math.exp] in the strength adjustment, is
    taken over the reals.  Values that the code produces with [Math.round]
    are integers ([Z]).  Rounding error of IEEE doubles, NaN and the
    infinities are outside this idealisation; it is used for bounds, signs,
    orderings and structure, which do not depend on the last bit.  Where the
    exact integer returned by [Math.round] is at stake (the matchup
    adjustment) the lines are evaluated a second time on binary64 primitive
    floats. *)

From Stdlib Require Import ZArith QArith Qround Qreals Reals Lra Lia.
From Stdlib Require Import List String Ascii Bool DecimalString.
From Stdlib Require Import Permutation Sorted.
From Stdlib Require Lqa.
From Stdlib Require PrimFloat FloatOps SpecFloat Uint63.
Import ListNotations.

Local Open Scope string_scope.
Local Open Scope Z_scope.

(** ** JavaScript numeric helpers *)

(** [Math.round x]: the nearest integer, halves rounded towards +infinity. *)
Definition js_round (x : Q) : Z := Qfloor (x + (1 # 2)).

(** [x || d] on numbers: [0] is the only falsy rational. *)
Definition num_or (x d : Q) : Q := if Qeq_bool x 0 then d else x.

(** [Math.min] and [Math.max] on rationals. *)
Definition qmin (x y : Q) : Q := if Qle_bool x y then x else y.
Definition qmax (x y : Q) : Q := if Qle_bool x y then y else x.

(** Strict comparisons [x < y] and [x > y] as booleans. *)
Definition Qlt_bool (x y : Q) : bool := negb (Qle_bool y x).

(** ** Data model (types/data.ts and the interfaces of strategy.ts) *)

Inductive Style : Type :=
| late_mover | front_runner | mid_surge | balanced | no_passes
| developing | sprint | unknown.

Definition Style_eqb (a b : Style) : bool :=
  match a, b with
  | late_mover, late_mover | front_runner, front_runner
  | mid_surge, mid_surge | balanced, balanced | no_passes, no_passes
  | developing, developing | sprint, sprint | unknown, unknown => true
  | _, _ => false
  end.

Record Medal : Type := mkMedal {
  gold : Q; silver : Q; bronze : Q; medal_total : Q }.

Record SkaterStats : Type := mkSkaterStats {
  total_races : Q;
  competitions_entered : Q;
  medals : Medal;
  finals_appearances : Q;
  total_passes_made : Q;
  total_times_passed : Q;
  net_passes : Q;
  avg_passes_per_race : Q;
  passes_early : Q;
  passes_middle : Q;
  passes_late : Q;
  style : Style;
  threat_score : Q;
  avg_place : option Q;
  podium_rate : option Q;
  win_rate : option Q;
  penalties : Q;
  dnf : Q;
  dns : Q;
  penalty_rate : Q;
  clean_race_pct : Q;
  crashes_inferred : Q;
  crash_rate : Q }.

(** The identity and the statistics of a skater.  The biographical fields
    ([id], [dob], [club], [events], ...) are read by no function of the
    engine and are left out. *)
Record Skater : Type := mkSkater {
  name : string;
  nationality : string;
  flag : string;
  stats : SkaterStats }.

Record Pace : Type := mkPace { early : Z; middle : Z; late : Z }.

Inductive ThreatLevel : Type := high | medium | low.

Record OpponentThreat : Type := mkOpponentThreat {
  o_name : string;
  o_flag : string;
  o_nationality : string;
  o_style : Style;
  o_threat_score : Q;
  threatLevel : ThreatLevel;
  o_net_passes : Q;
  o_avg_passes_per_race : Q;
  o_total_races : Q;
  medals_total : Q;
  o_penalties : Q;
  crash_count : Q;
  o_penalty_rate : Q;
  o_crash_rate : Q;
  o_lane : option Z }.

(** ** Threat evaluator

    The fields of [SkaterStats] are declared as plain numbers and [medals]
    as an object, so the guards [stats.medals ? .. : 0] and [x ?? 0] always
    take their first branch; [x || 0] is kept as [num_or]. *)

Definition computeThreatLevel (threatScore : Q) : ThreatLevel :=
  if Qle_bool 60 threatScore then high
  else if Qle_bool 30 threatScore then medium
  else low.

Definition buildOpponentThreat (skater : Skater) (lane : option Z)
  : OpponentThreat :=
  let st := stats skater in
  let totalMedals :=
    (num_or (gold (medals st)) 0 + num_or (silver (medals st)) 0
     + num_or (bronze (medals st)) 0)%Q in
  let threatScore := num_or (threat_score st) 0 in
  {| o_name := name skater;
     o_flag := flag skater;
     o_nationality := nationality skater;
     o_style := style st;
     o_threat_score := inject_Z (js_round threatScore);
     threatLevel := computeThreatLevel threatScore;
     o_net_passes := net_passes st;
     o_avg_passes_per_race :=
       (inject_Z (js_round (avg_passes_per_race st * 100)) / 100)%Q;
     o_total_races := total_races st;
     medals_total := totalMedals;
     o_penalties := penalties st;
     crash_count := crashes_inferred st;
     o_penalty_rate := penalty_rate st;
     o_crash_rate := crash_rate st;
     o_lane := lane |}.

(** ** Pace planner *)

Definition paceBase (s : Style) : option Pace :=
  match s with
  | front_runner => Some (mkPace 40 35 25)
  | late_mover => Some (mkPace 25 35 40)
  | mid_surge => Some (mkPace 30 40 30)
  | balanced => Some (mkPace 33 34 33)
  | no_passes => Some (mkPace 33 34 33)
  | _ => None
  end.

Definition shiftPace (p : Pace) (de dm dl : Z) : Pace :=
  mkPace (early p + de) (middle p + dm) (late p + dl).

Definition distanceAdjust (distance : string) (p : Pace) : Pace :=
  let p := if String.eqb distance "500" then shiftPace p 5 0 (-5) else p in
  if String.eqb distance "1500" then shiftPace p (-5) 0 5 else p.

Definition laneAdjust (lane : Z) (p : Pace) : Pace :=
  let p := if lane <=? 2 then shiftPace p (-3) 3 0 else p in
  if lane >=? 4 then shiftPace p 3 0 (-3) else p.

(** [opponents.reduce((s, o) => s + (o.threat_score || 0), 0) / opponents.length]
    on exact rationals.  The sum of the code is exact, too, when the scores
    are integers, as [buildOpponentThreat] stores them; on fractional scores
    its left-to-right binary64 sum can differ in the last bit. *)
Definition avgThreat (opponents : list OpponentThreat) : Q :=
  (fold_left (fun s o => s + num_or (o_threat_score o) 0) opponents 0
   / inject_Z (Z.of_nat (List.length opponents)))%Q.

Definition fieldAdjust (opponents : list OpponentThreat) (p : Pace) : Pace :=
  match opponents with
  | [] => p
  | _ :: _ =>
      if Qlt_bool 50 (avgThreat opponents) then shiftPace p 2 1 (-3)
      else if Qlt_bool (avgThreat opponents) 25 then shiftPace p (-3) 0 3
      else p
  end.

(** The raw triple, before it is normalised. *)
Definition rawPace (style : Style) (distance : string) (lane : Z)
    (opponents : list OpponentThreat) : Pace :=
  let base := match paceBase style with
              | Some p => p
              | None => mkPace 33 34 33
              end in
  fieldAdjust opponents (laneAdjust lane (distanceAdjust distance base)).

Definition normalizePace (p : Pace) : Pace :=
  let total := early p + middle p + late p in
  let e := js_round ((inject_Z (early p) / inject_Z total) * 100) in
  let m := js_round ((inject_Z (middle p) / inject_Z total) * 100) in
  mkPace e m (100 - e - m).

Definition computePace (style : Style) (distance : string) (lane : Z)
    (opponents : list OpponentThreat) : Pace :=
  normalizePace (rawPace style distance lane opponents).

(** ** Text helpers *)

(** Template-literal rendering of an integer-valued number. *)
Definition show_Z (z : Z) : string := NilZero.string_of_int (Z.to_int z).

(** [parts.join(sep)] *)
Fixpoint join (sep : string) (parts : list string) : string :=
  match parts with
  | [] => EmptyString
  | [p] => p
  | p :: rest => p ++ sep ++ join sep rest
  end.

(** The label table of strategy.ts has five entries; a style outside it
    reads as [undefined]. *)
Definition STYLE_LABELS (s : Style) : option string :=
  match s with
  | late_mover => Some "Late Mover"
  | front_runner => Some "Front Runner"
  | mid_surge => Some "Mid-Race Surge"
  | balanced => Some "Balanced"
  | no_passes => Some "No Passes"
  | _ => None
  end.

(** Template-literal rendering of a possibly undefined string. *)
Definition show_opt (o : option string) : string :=
  match o with Some s => s | None => "undefined" end.

(** The lap table, for keys that are not names of members a plain object
    inherits from [Object.prototype] ('constructor', 'toString', ...): for
    those the lookup of the code returns the inherited member. *)
Definition TOTAL_LAPS (distance : string) : option Z :=
  if String.eqb distance "500" then Some 5
  else if String.eqb distance "1000" then Some 9
  else if String.eqb distance "1500" then Some 14
  else None.

(** [TOTAL_LAPS[distance] || 9] *)
Definition totalLapsOf (distance : string) : Z :=
  match TOTAL_LAPS distance with Some n => n | None => 9 end.

(** ** Lap plan builder *)

Inductive Phase : Type := Early | Mid | Late.
Inductive ActionClass : Type := hold | push | overtake | conserve.

Record LapPlanItem : Type := mkLapPlanItem {
  lap : Z;
  phase : Phase;
  hotspot : bool;
  action : string;
  actionClass : ActionClass }.

(** [hotspotLapNums.has(lap)], the set kept as the list of its members. *)
Definition has (s : list Z) (x : Z) : bool := existsb (Z.eqb x) s.

(** The body of the loop of [buildLapPlan], for one lap. *)
Definition lapPlanItem (totalLaps : Z) (hotspotLapNums : list Z) (pace : Pace)
    (style : Style) (lap : Z) : LapPlanItem :=
  let pct := (inject_Z lap / inject_Z totalLaps)%Q in
  let phase :=
    if Qle_bool pct 0.33 then Early
    else if Qle_bool pct 0.67 then Mid else Late in
  let isHotspot := has hotspotLapNums lap in
  let '(action, actionClass) :=
    if lap =? 1 then ("Position", hold)
    else if lap =? totalLaps then ("Sprint!", push)
    else if lap =? totalLaps - 1 then
      (if Style_eqb style late_mover then "Attack!" else "Push", push)
    else if isHotspot then
      if Style_eqb style front_runner && Qle_bool pct 0.5 then
        ("Attack", overtake)
      else if Style_eqb style late_mover && Qlt_bool 0.6 pct then
        ("Attack", overtake)
      else if Style_eqb style mid_surge && Qlt_bool 0.3 pct
              && Qlt_bool pct 0.7 then
        ("Surge", overtake)
      else ("Ready", overtake)
    else if Qle_bool pct 0.33 then
      (if 35 <=? early pace then "Push" else "Conserve",
       if 35 <=? early pace then hold else conserve)
    else if Qle_bool pct 0.67 then ("Hold", hold)
    else
      (if 35 <=? late pace then "Push" else "Hold",
       if 35 <=? late pace then push else hold) in
  mkLapPlanItem lap phase isHotspot action actionClass.

(** The laps [1 .. totalLaps] the loop runs over (none when
    [totalLaps < 1]). *)
Definition lapNumbers (totalLaps : Z) : list Z :=
  map Z.of_nat (seq 1 (Z.to_nat totalLaps)).

Definition buildLapPlan (totalLaps : Z) (hotspotLapNums : list Z)
    (pace : Pace) (style : Style) : list LapPlanItem :=
  map (lapPlanItem totalLaps hotspotLapNums pace style) (lapNumbers totalLaps).

(** ** Matchup analyzer *)

Record StyleMatchup : Type := mkStyleMatchup {
  sm_win_rate : Q;
  sm_total : Q }.

(** [Record<string, Record<string, StyleMatchup>>], looked up by style. *)
Definition StyleMatchups : Type := Style -> option (Style -> option StyleMatchup).

Record MatchupInsight : Type := mkMatchupInsight {
  opponent : string;
  mi_flag : string;
  advantage : bool;
  disadvantage : bool;
  winRate : Q;
  myStyle : Style;
  oppStyle : Style;
  note : string }.

(** The body of the loop of [buildMatchupInsights]: the insight pushed for
    one opponent, if any.  Every value of [Style] is a non-empty string, so
    [opp.style || 'balanced'] is [opp.style]. *)
Definition matchupInsightFor (myStyle : Style)
    (myMatchups : Style -> option StyleMatchup) (opp : OpponentThreat)
  : option MatchupInsight :=
  let oppStyle := o_style opp in
  match myMatchups oppStyle with
  | None => None
  | Some matchup =>
      if Qle_bool 5 (sm_total matchup) then
        let wr := sm_win_rate matchup in
        let advantage := Qlt_bool 0.55 wr in
        let disadvantage := Qlt_bool wr 0.45 in
        let note :=
          if advantage then
            "Your " ++ show_opt (STYLE_LABELS myStyle) ++ " style wins "
            ++ show_Z (js_round (wr * 100)) ++ "% against "
            ++ show_opt (STYLE_LABELS oppStyle)
          else if disadvantage then
            show_opt (STYLE_LABELS oppStyle) ++ " beats your style "
            ++ show_Z (js_round ((1 - wr) * 100))
            ++ "% of the time — adjust tactics!"
          else
            "Even matchup (" ++ show_Z (js_round (wr * 100))
            ++ "%) — race execution will decide" in
        Some (mkMatchupInsight (o_name opp) (o_flag opp) advantage
                disadvantage wr myStyle oppStyle note)
      else None
  end.

(** [for (const opp of ...) { if (...) insights.push(...) }] *)
Fixpoint collectInsights (myStyle : Style)
    (myMatchups : Style -> option StyleMatchup)
    (opps : list OpponentThreat) : list MatchupInsight :=
  match opps with
  | [] => []
  | opp :: rest =>
      match matchupInsightFor myStyle myMatchups opp with
      | Some i => i :: collectInsights myStyle myMatchups rest
      | None => collectInsights myStyle myMatchups rest
      end
  end.

Definition buildMatchupInsights (myStyle : Style)
    (opponents : list OpponentThreat) (styleMatchups : StyleMatchups)
  : list MatchupInsight :=
  match styleMatchups myStyle with
  | None => []
  | Some myMatchups => collectInsights myStyle myMatchups (firstn 3 opponents)
  end.

(** ** Synthetic competitor builder *)

Record CustomSkaterInput : Type := mkCustomSkaterInput {
  ci_name : string;
  ci_nationality : string;
  ci_flag : string;
  ci_style : Style;
  pass_rate : Q;
  passed_rate : Q;
  threat : Q }.

(** The phase split [(early, middle, late)] of [passesMade] by style. *)
Definition distributePasses (s : Style) (passesMade : Z) : Z * Z * Z :=
  let pm := inject_Z passesMade in
  match s with
  | front_runner =>
      let e := js_round (pm * 0.5) in
      let m := js_round (pm * 0.3) in
      (e, m, passesMade - e - m)
  | late_mover =>
      let l := js_round (pm * 0.5) in
      let m := js_round (pm * 0.3) in
      (passesMade - l - m, m, l)
  | mid_surge =>
      let m := js_round (pm * 0.5) in
      let e := js_round (pm * 0.25) in
      (e, m, passesMade - m - e)
  | _ =>
      let e := js_round (pm * 0.33) in
      let m := js_round (pm * 0.34) in
      (e, m, passesMade - e - m)
  end.

Definition buildCustomSkater (input : CustomSkaterInput) : Skater :=
  let totalRaces := 10 in
  let passesMade := js_round (pass_rate input * inject_Z totalRaces) in
  let timesPassed := js_round (passed_rate input * inject_Z totalRaces) in
  let netPasses := passesMade - timesPassed in
  let '(e, m, l) := distributePasses (ci_style input) passesMade in
  {| name := ci_name input;
     nationality := ci_nationality input;
     flag := if String.eqb (ci_flag input) EmptyString then "🏳️" else ci_flag input;
     stats :=
       {| total_races := inject_Z totalRaces;
          competitions_entered := 0;
          medals := mkMedal 0 0 0 0;
          finals_appearances := 0;
          total_passes_made := inject_Z passesMade;
          total_times_passed := inject_Z timesPassed;
          net_passes := inject_Z netPasses;
          avg_passes_per_race := pass_rate input;
          passes_early := inject_Z e;
          passes_middle := inject_Z m;
          passes_late := inject_Z l;
          style := ci_style input;
          threat_score := threat input;
          avg_place := None;
          podium_rate := None;
          win_rate := None;
          penalties := 0;
          dnf := 0;
          dns := 0;
          penalty_rate := 0;
          clean_race_pct := 1;
          crashes_inferred := 0;
          crash_rate := 0 |} |}.

(** ** Win probability model *)

Record LaneAdvData : Type := mkLaneAdvData {
  la_win_rate : option Q;
  la_top2_rate : option Q }.

Record WinProbability : Type := mkWinProbability {
  overall : Z;
  laneBase : Z;
  strengthAdj : Z;
  matchupAdj : Z;
  podium : Z;
  explanation : string;
  hasOpponents : bool }.

(** [laneAdvData?.win_rate != null ? Math.round(win_rate * 100) : 20] *)
Definition laneBaseOf (laneAdvData : option LaneAdvData) : Z :=
  match laneAdvData with
  | Some d =>
      match la_win_rate d with
      | Some w => js_round (w * 100)
      | None => 20
      end
  | None => 20
  end.

Definition laneTop2Of (laneAdvData : option LaneAdvData) : Z :=
  match laneAdvData with
  | Some d =>
      match la_top2_rate d with
      | Some t => js_round (t * 100)
      | None => 40
      end
  | None => 40
  end.

(** Composite strength of the competitor. *)
Definition myStrengthOf (mySkater : Skater) : Q :=
  let st := stats mySkater in
  let myThreat := threat_score st in
  let myNetPasses := net_passes st in
  let myAvgPasses := avg_passes_per_race st in
  let myMedals :=
    (num_or (gold (medals st)) 0 * 3 + num_or (silver (medals st)) 0 * 2
     + num_or (bronze (medals st)) 0)%Q in
  let myRaces := num_or (total_races st) 1 in
  qmin 100 (qmax 0
    (myThreat * 0.4
     + qmin 30 (qmax (-10) (myNetPasses / myRaces * 15))
     + qmin 20 (myAvgPasses * 5)
     + qmin 20 (myMedals * 2))%Q).

(** The callback of the [reduce] over the opponents. *)
Definition oppStrengthStep (sum : Q) (o : OpponentThreat) : Q :=
  let oppMedals := num_or (medals_total o) 0 in
  (sum
   + num_or (o_threat_score o) 0 * 0.4
   + qmin 30 (qmax (-10) (o_net_passes o / qmax 1 (o_total_races o) * 15))
   + qmin 20 (o_avg_passes_per_race o * 5)
   + qmin 20 (oppMedals * 2))%Q.

(** [avgOppStrength]: initialised to [myStrength], overwritten when there
    are opponents. *)
Definition avgOppStrengthOf (myStrength : Q) (opponents : list OpponentThreat)
  : Q :=
  match opponents with
  | [] => myStrength
  | _ :: _ =>
      qmin 100 (qmax 0
        (fold_left oppStrengthStep opponents 0
         / inject_Z (Z.of_nat (List.length opponents)))%Q)
  end.

(** [Math.round(50 * (2 / (1 + Math.exp(-strengthDelta / 20)) - 1))] *)
Definition strengthAdjOf (strengthDelta : Q) : Z :=
  Zfloor (50 * (2 / (1 + exp (- Q2R strengthDelta / 20)) - 1) + / 2)%R.

(** The callback of the [reduce] over the matchup insights. *)
Definition matchupStep (sum : Q) (m : MatchupInsight) : Q :=
  if advantage m then (sum + (winRate m - 0.5) * 30)%Q
  else if disadvantage m then (sum + (winRate m - 0.5) * 30)%Q
  else sum.

(** The matchup adjustment on exact rationals.  Its bounds, its sign and
    its value on the empty list are those of the code; its exact value on
    binary64 inputs is [matchupAdj_binary64], which can differ by one when
    the mean is within rounding error of a half-integer. *)
Definition matchupAdjOf (matchupInsights : list MatchupInsight) : Z :=
  match matchupInsights with
  | [] => 0
  | _ :: _ =>
      let totalAdv := fold_left matchupStep matchupInsights 0%Q in
      js_round (qmax (-15) (qmin 15
        (totalAdv / inject_Z (Z.of_nat (List.length matchupInsights)))%Q))
  end.

Definition winExplanation (lane : Z) (hasOpponents : bool)
    (laneBase strengthAdj matchupAdj : Z) : string :=
  let parts :=
    if negb hasOpponents then
      ["Lane " ++ show_Z lane ++ " base only (no opponents selected)"]
    else
      ("Lane " ++ show_Z lane ++ " base: " ++ show_Z laneBase ++ "%")
      :: (if 0 <? strengthAdj then
            "Strength edge: +" ++ show_Z strengthAdj ++ "%"
          else if strengthAdj <? 0 then
            "Strength gap: " ++ show_Z strengthAdj ++ "%"
          else "Strength: even")
      :: (if 0 <? matchupAdj then
            ["Style matchup: +" ++ show_Z matchupAdj ++ "%"]
          else if matchupAdj <? 0 then
            ["Style matchup: " ++ show_Z matchupAdj ++ "%"]
          else []) in
  join " · " parts.

Definition computeWinProbability (mySkater : Skater) (lane : Z)
    (_distance : string) (opponents : list OpponentThreat)
    (matchupInsights : list MatchupInsight)
    (laneAdvData : option LaneAdvData) : WinProbability :=
  let laneBase := laneBaseOf laneAdvData in
  let laneTop2 := laneTop2Of laneAdvData in
  let myStrength := myStrengthOf mySkater in
  let avgOppStrength := avgOppStrengthOf myStrength opponents in
  let hasOpponents := (0 <? Z.of_nat (List.length opponents)) in
  let strengthDelta := (myStrength - avgOppStrength)%Q in
  let strengthAdj := strengthAdjOf strengthDelta in
  let matchupAdj := matchupAdjOf matchupInsights in
  let rawWin := laneBase + strengthAdj + matchupAdj in
  let overall := js_round (qmax 1 (qmin 99 (inject_Z rawWin))) in
  let rawPodium :=
    (inject_Z laneTop2 + inject_Z strengthAdj * 0.8
     + inject_Z matchupAdj * 0.5)%Q in
  let podium := js_round (qmax 2 (qmin 99 rawPodium)) in
  let explanation :=
    winExplanation lane hasOpponents laneBase strengthAdj matchupAdj in
  {| overall := overall;
     laneBase := laneBase;
     strengthAdj := strengthAdj;
     matchupAdj := matchupAdj;
     podium := podium;
     explanation := explanation;
     hasOpponents := hasOpponents |}.

(** ** Advice generator *)

Record AdviceItem : Type := mkAdviceItem { icon : string; text : string }.

Record TimingEntry : Type := mkTimingEntry { count : Q; pct : Q }.

Record HotspotLap : Type := mkHotspotLap { h_lap : Z; h_overtakes : Q }.

(** [Array.prototype.sort] is stable: an element moves behind another one
    only when the comparator is positive.  [comesAfter x y] is
    [compare(x, y) > 0]. *)
Fixpoint insertStable {A : Type} (comesAfter : A -> A -> bool) (x : A)
    (l : list A) : list A :=
  match l with
  | [] => [x]
  | y :: rest =>
      if comesAfter x y then y :: insertStable comesAfter x rest
      else x :: l
  end.

Definition sortStable {A : Type} (comesAfter : A -> A -> bool) (l : list A)
  : list A :=
  fold_right (insertStable comesAfter) [] l.

Definition stageLabels (stage : string) : option string :=
  if String.eqb stage "early" then Some "early laps"
  else if String.eqb stage "middle" then Some "mid-race"
  else if String.eqb stage "late" then Some "final laps"
  else None.

Definition styleAdvice (totalLaps : Z) (s : Style) : option AdviceItem :=
  match s with
  | late_mover =>
      Some (mkAdviceItem "🐍"
        ("As a Late Mover, save energy early and stay in the pack. Launch your attack in the final "
         ++ show_Z (Z.max 2 (Qceiling (inject_Z totalLaps * 0.2)))
         ++ " laps."))
  | front_runner =>
      Some (mkAdviceItem "🚀"
        "As a Front Runner, get to the front early and control the pace — don't let late movers draft behind you.")
  | mid_surge =>
      Some (mkAdviceItem "💥"
        "As a Mid-Surge skater, stay near the top 3 early, then make your big move in the middle laps.")
  | balanced =>
      Some (mkAdviceItem "⚖️"
        "As a Balanced skater, read the race and adapt — respond to attacks rather than forcing them.")
  | no_passes =>
      Some (mkAdviceItem "🛡️"
        "Focus on clean skating and holding position. Avoid risky passing attempts.")
  | _ => None
  end.

Section Advice.

(** The run-time rendering of an arbitrary [number] inside a template
    literal ([Number.prototype.toString]); integers produced by
    [Math.round] are rendered by [show_Z]. *)
Variable numberToString : Q -> string.

Definition winProbAdvice (lane : Z) (distance : string)
    (laneAdvData : option LaneAdvData) (winProb : option WinProbability)
  : list AdviceItem :=
  match winProb with
  | Some wp =>
      let wr := overall wp in
      let pod := podium wp in
      let head :=
        "Your personalized win chance is <strong>" ++ show_Z wr
        ++ "%</strong> (podium " ++ show_Z pod ++ "%) — " in
      (if 40 <=? wr then
         mkAdviceItem "🏆"
           (head ++ "you have a clear edge. Stay disciplined and execute your game plan.")
       else if 20 <=? wr then
         mkAdviceItem "🎲"
           (head ++ "competitive field. Smart tactics and clean execution will be key.")
       else
         mkAdviceItem "⚠️"
           (head ++ "tough opponents. Focus on clean laps, avoid crashes, and look for openings."))
      :: (if 15 <? strengthAdj wp then
            [mkAdviceItem "💪"
               ("You have a significant skill advantage (+"
                ++ show_Z (strengthAdj wp)
                ++ "% adjustment) over this field — control the pace and don't take unnecessary risks.")]
          else if strengthAdj wp <? -15 then
            [mkAdviceItem "🧠"
               ("You're facing stronger opponents ("
                ++ show_Z (strengthAdj wp)
                ++ "% skill gap) — race smart, draft efficiently, and pick your moments carefully.")]
          else [])
  | None =>
      match laneAdvData with
      | Some d =>
          match la_win_rate d with
          | Some w =>
              [mkAdviceItem "📍"
                 ("Lane " ++ show_Z lane ++ " has a "
                  ++ show_Z (js_round (w * 100))
                  ++ "% historical win rate in " ++ distance ++ "m.")]
          | None => []
          end
      | None => []
      end
  end.

Definition topThreatAdvice (opponents : list OpponentThreat)
  : list AdviceItem :=
  match opponents with
  | o :: _ =>
      if Qle_bool 50 (o_threat_score o) then
        [mkAdviceItem "🎯"
           ("Watch out for " ++ o_flag o ++ " " ++ o_name o ++ " (threat "
            ++ numberToString (o_threat_score o)
            ++ ") — stay on their hip, don't let them get away.")]
      else []
  | [] => []
  end.

Definition timingAdvice (distance : string)
    (timing : list (string * TimingEntry)) : list AdviceItem :=
  let timingEntries :=
    sortStable (fun a b => Qlt_bool (count (snd a)) (count (snd b))) timing in
  match timingEntries with
  | (bestStage, bestData) :: _ =>
      [mkAdviceItem "⏱️"
         ("Most overtakes in " ++ distance ++ "m happen in the "
          ++ match stageLabels bestStage with
             | Some l => l
             | None => bestStage
             end
          ++ " (" ++ numberToString (pct bestData)
          ++ "%) — plan your moves for that window.")]
  | [] => []
  end.

Definition hotspotAdvice (hotspots : list HotspotLap) : list AdviceItem :=
  match hotspots with
  | [] => []
  | _ :: _ =>
      let lapNums :=
        join ", " (map (fun h => "Lap " ++ show_Z (h_lap h)) hotspots) in
      [mkAdviceItem "🔥"
         ("Overtake hotspots: " ++ lapNums
          ++ " — be ready to attack or defend on these laps.")]
  end.

Definition matchupAdvice (matchups : list MatchupInsight)
  : list AdviceItem :=
  match filter disadvantage matchups with
  | [] => []
  | badMatchups =>
      [mkAdviceItem "⚔️"
         ("Style disadvantage against "
          ++ join ", "
               (map (fun m => mi_flag m ++ " " ++ opponent m) badMatchups)
          ++ " — avoid a direct duel; use smart positioning instead.")]
  end.

Definition penaltyAdvice (opponents : list OpponentThreat)
  : list AdviceItem :=
  match filter (fun o => Qlt_bool 0.15 (o_penalty_rate o)) opponents with
  | [] => []
  | penaltyDangers =>
      [mkAdviceItem "🟡"
         (join ", " (map (fun o => o_flag o ++ " " ++ o_name o) penaltyDangers)
          ++ " "
          ++ (if 1 <? Z.of_nat (List.length penaltyDangers)
              then "get" else "gets")
          ++ " penalized often — keep your distance so you don't get caught up.")]
  end.

Definition crashAdvice (opponents : list OpponentThreat)
  : list AdviceItem :=
  match filter (fun o => Qlt_bool 0.1 (o_crash_rate o)) opponents with
  | [] => []
  | crashDangers =>
      [mkAdviceItem "💥"
         (join ", " (map (fun o => o_flag o ++ " " ++ o_name o) crashDangers)
          ++ " "
          ++ (if 1 <? Z.of_nat (List.length crashDangers)
              then "have" else "has")
          ++ " a high crash rate — stay clear to avoid being taken down.")]
  end.

Definition paceAdvice (pace : Pace) : AdviceItem :=
  let paceDesc :=
    if 38 <=? early pace then "front-loaded aggressive start"
    else if 38 <=? late pace then "back-loaded finish sprint"
    else "even distribution" in
  mkAdviceItem "🏎️"
    ("Recommended pace: " ++ paceDesc ++ " — Early " ++ show_Z (early pace)
     ++ "% / Mid " ++ show_Z (middle pace) ++ "% / Late "
     ++ show_Z (late pace) ++ "%.").

(** The rules push onto one list, in this order. *)
Definition generateAdvice (style : Style) (distance : string) (lane : Z)
    (laneAdvData : option LaneAdvData) (opponents : list OpponentThreat)
    (pace : Pace) (timing : list (string * TimingEntry))
    (hotspots : list HotspotLap) (matchups : list MatchupInsight)
    (winProb : option WinProbability) : list AdviceItem :=
  let totalLaps := totalLapsOf distance in
  (winProbAdvice lane distance laneAdvData winProb
   ++ topThreatAdvice opponents
   ++ timingAdvice distance timing
   ++ hotspotAdvice hotspots
   ++ match styleAdvice totalLaps style with
      | Some a => [a]
      | None => []
      end
   ++ matchupAdvice matchups
   ++ penaltyAdvice opponents
   ++ crashAdvice opponents
   ++ [paceAdvice pace])%list.

(** ** Strategy orchestrator *)

(** An entry of the lane table: [LaneAdvantage] of types/data.ts, with the
    [top2_rate] that [computeWinProbability] reads when it is there. *)
Record LaneAdvantage : Type := mkLaneAdvantage {
  lane_win_rate : Q;
  lane_total : Q;
  lane_top2_rate : option Q }.

Record LapDetail : Type := mkLapDetail { ld_overtakes : Q }.

Record StrategyData : Type := mkStrategyData {
  lane_advantage : string -> option (string -> option LaneAdvantage);
  hotspot_laps : string -> option (list HotspotLap);
  overtake_timing : string -> option (list (string * TimingEntry));
  lap_details : string -> option (string -> option LapDetail);
  style_matchups : StyleMatchups }.

Record Models : Type := mkModels { strategy : StrategyData }.

Record LapOvertakeData : Type := mkLapOvertakeData {
  lo_lap : Z;
  lo_overtakes : Q;
  isHotspot : bool }.

Record StrategyResult : Type := mkStrategyResult {
  mySkaterName : string;
  mySkaterFlag : string;
  r_distance : string;
  r_lane : Z;
  r_totalLaps : Z;
  r_style : Style;
  r_pace : Pace;
  advice : list AdviceItem;
  lapPlan : list LapPlanItem;
  opponentThreats : list OpponentThreat;
  matchupInsights : list MatchupInsight;
  laneWinRate : option Z;
  winProbability : WinProbability;
  lapOvertakeData : list LapOvertakeData }.

Definition buildLapOvertakeData (distance : string)
    (strategyData : StrategyData) (hotspotLapNums : list Z) (totalLaps : Z)
  : list LapOvertakeData :=
  let lapDetails :=
    match lap_details strategyData distance with
    | Some t => t
    | None => fun _ => None
    end in
  map (fun i =>
         mkLapOvertakeData i
           (match lapDetails (show_Z i) with
            | Some detail => num_or (ld_overtakes detail) 0
            | None => 0%Q
            end)
           (has hotspotLapNums i))
      (lapNumbers totalLaps).

(** The cast of the lane entry to the parameter type of
    [computeWinProbability] and [generateAdvice]. *)
Definition asLaneAdvData (l : LaneAdvantage) : LaneAdvData :=
  mkLaneAdvData (Some (lane_win_rate l)) (lane_top2_rate l).

(** Every value of [Style] is a non-empty string, so
    [mySkater.stats.style || 'balanced'] is the style itself. *)
Definition generateStrategy (mySkater : Skater) (distance : string)
    (lane : Z) (opponents : list OpponentThreat) (models : option Models)
  : StrategyResult :=
  let strategyData := option_map strategy models in
  let totalLaps := totalLapsOf distance in
  let style := style (stats mySkater) in
  let laneAdvData :=
    match strategyData with
    | Some sd =>
        match lane_advantage sd distance with
        | Some byLane => byLane (show_Z lane)
        | None => None
        end
    | None => None
    end in
  let hotspots :=
    match strategyData with
    | Some sd =>
        match hotspot_laps sd distance with Some h => h | None => [] end
    | None => []
    end in
  let hotspotLapNums := map h_lap hotspots in
  let timing :=
    match strategyData with
    | Some sd =>
        match overtake_timing sd distance with Some t => t | None => [] end
    | None => []
    end in
  let styleMatchups :=
    match strategyData with
    | Some sd => style_matchups sd
    | None => fun _ => None
    end in
  let sortedOpponents :=
    sortStable
      (fun a b => Qlt_bool (o_threat_score a) (o_threat_score b)) opponents in
  let pace := computePace style distance lane sortedOpponents in
  let matchupInsights :=
    buildMatchupInsights style sortedOpponents styleMatchups in
  let laneWinRate :=
    option_map (fun l => js_round (lane_win_rate l * 100)) laneAdvData in
  let winProbability :=
    computeWinProbability mySkater lane distance sortedOpponents
      matchupInsights (option_map asLaneAdvData laneAdvData) in
  let advice :=
    generateAdvice style distance lane (option_map asLaneAdvData laneAdvData)
      sortedOpponents pace timing hotspots matchupInsights
      (Some winProbability) in
  let lapPlan := buildLapPlan totalLaps hotspotLapNums pace style in
  let lapOvertakeData :=
    match strategyData with
    | Some sd => buildLapOvertakeData distance sd hotspotLapNums totalLaps
    | None => []
    end in
  {| mySkaterName := name mySkater;
     mySkaterFlag := flag mySkater;
     r_distance := distance;
     r_lane := lane;
     r_totalLaps := totalLaps;
     r_style := style;
     r_pace := pace;
     advice := advice;
     lapPlan := lapPlan;
     opponentThreats := sortedOpponents;
     matchupInsights := matchupInsights;
     laneWinRate := laneWinRate;
     winProbability := winProbability;
     lapOvertakeData := lapOvertakeData |}.

End Advice.

(** * Sample inputs and specification-side definitions *)

(** A synthetic opponent of the given style and threat, built the way the
    setup form builds one. *)
Definition sampleSkater (nm : string) (s : Style) (t : Q) : Skater :=
  buildCustomSkater (mkCustomSkaterInput nm "USA" "🇺🇸" s 3 4 t).

Definition sampleOpponent (nm : string) (s : Style) (t : Q) : OpponentThreat :=
  buildOpponentThreat (sampleSkater nm s t) None.

Definition paceTotal (p : Pace) : Z := early p + middle p + late p.

(** The sum of a list of rationals. *)
Definition Qsum (l : list Q) : Q := fold_right Qplus 0%Q l.

(** An opponent is eligible for an insight when the table has an entry for
    the style pair and its sample size is at least 5. *)
Definition hasMatchupData (styleMatchups : StyleMatchups) (myStyle : Style)
    (opp : OpponentThreat) : bool :=
  match styleMatchups myStyle with
  | Some byStyle =>
      match byStyle (o_style opp) with
      | Some m => Qle_bool 5 (sm_total m)
      | None => false
      end
  | None => false
  end.

(** A small aggregate model for the 500 m, written as key lookups. *)
Definition sampleStrategyData : StrategyData :=
  {| lane_advantage := fun d =>
       if String.eqb d "500" then
         Some (fun l =>
                 if String.eqb l "1" then
                   Some (mkLaneAdvantage 0.31 120 (Some 0.55%Q))
                 else if String.eqb l "2" then
                   Some (mkLaneAdvantage 0.24 118 None)
                 else None)
       else None;
     hotspot_laps := fun d =>
       if String.eqb d "500" then Some [mkHotspotLap 2 41; mkHotspotLap 4 37]
       else None;
     overtake_timing := fun d =>
       if String.eqb d "500" then
         Some [("early", mkTimingEntry 30 25); ("middle", mkTimingEntry 50 41.7);
               ("late", mkTimingEntry 40 33.3)]
       else None;
     lap_details := fun d =>
       if String.eqb d "500" then
         Some (fun l => if String.eqb l "2" then Some (mkLapDetail 41)
                        else if String.eqb l "4" then Some (mkLapDetail 37)
                        else None)
       else None;
     style_matchups := fun s =>
       match s with
       | late_mover =>
           Some (fun s' => match s' with
                           | front_runner => Some (mkStyleMatchup 0.6 40)
                           | balanced => Some (mkStyleMatchup 0.9 3)
                           | _ => None
                           end)
       | _ => None
       end |}.

(** Whether a list of advice holds an item with the given icon. *)
Definition hasIcon (ic : string) (l : list AdviceItem) : bool :=
  existsb (fun a => String.eqb (icon a) ic) l.

(** The order low < medium < high of the threat levels. *)
Definition levelRank (l : ThreatLevel) : Z :=
  match l with low => 0 | medium => 1 | high => 2 end.

(** The order Early < Mid < Late of the phases. *)
Definition phaseRank (p : Phase) : Z :=
  match p with Early => 0 | Mid => 1 | Late => 2 end.

(** ** Pace bar (components/strategy/PaceBar.tsx)

    The lap ranges printed under the bar: laps [1 .. earlyEnd] are shown as
    early, [earlyEnd + 1 .. midEnd] as middle, the rest as late. *)

(** [Math.ceil(totalLaps * 0.33)] *)
Definition earlyEnd (totalLaps : Z) : Z := Qceiling (inject_Z totalLaps * 0.33).

(** [Math.ceil(totalLaps * 0.67)] *)
Definition midEnd (totalLaps : Z) : Z := Qceiling (inject_Z totalLaps * 0.67).

(** ** List filters (hooks/useFilters.ts) and the Race Prep page

    [filterSkaters] reads the category and the gender of a skater; the
    event filters read the category, gender and distance of a heat, pass,
    crash or incident.  The four event filters have the same body, on
    records of different types, so the record type is left open and the
    fields that are read are given as accessors. *)

Inductive Category : Type :=
| senior | junior | youth_ja | youth_jb | youth_jc | youth_jd | youth_je
| youth_jf | youth_jg.

Inductive Gender : Type := Men | Women.

Scheme Equality for Category.
Scheme Equality for Gender.

(** A filter value: ['all'] or one value to keep. *)
Inductive Selection (A : Type) : Type :=
| all
| only (a : A).
Arguments all {A}.
Arguments only {A} a.

(** [sel !== 'all' && x !== sel] *)
Definition rejects {A : Type} (eqb : A -> A -> bool) (sel : Selection A)
    (x : A) : bool :=
  match sel with
  | all => false
  | only a => negb (eqb x a)
  end.

Record SkaterFilters : Type := mkSkaterFilters {
  sf_category : Selection Category;
  sf_gender : Selection Gender }.

Record EventFilters : Type := mkEventFilters {
  ef_category : Selection Category;
  ef_gender : Selection Gender;
  ef_distance : Selection Z }.

Section Filters.

Context {A : Type}.
Variable category : A -> Category.
Variable gender : A -> Gender.
Variable distance : A -> Z.

Definition filterSkaters (skaters : list A) (filters : SkaterFilters)
  : list A :=
  filter (fun s =>
            if rejects Category_beq (sf_category filters) (category s)
            then false
            else if rejects Gender_beq (sf_gender filters) (gender s)
            then false
            else true)
         skaters.

Definition filterHeats (heats : list A) (filters : EventFilters) : list A :=
  filter (fun h =>
            if rejects Category_beq (ef_category filters) (category h)
            then false
            else if rejects Gender_beq (ef_gender filters) (gender h)
            then false
            else if rejects Z.eqb (ef_distance filters) (distance h)
            then false
            else true)
         heats.

Definition filterPasses := filterHeats.
Definition filterCrashes := filterHeats.
Definition filterIncidents := filterHeats.

(** The skaters offered on the Race Prep page:
    [category === 'all' ? skaters : skaters.filter(s => s.category === category)] *)
Definition racePrepSkaters (skaters : list A) (cat : Selection Category)
  : list A :=
  match cat with
  | all => skaters
  | only c => filter (fun s => Category_beq (category s) c) skaters
  end.

(** Whether a value passes a selection. *)
Definition selected {B : Type} (sel : Selection B) (x : B) : Prop :=
  match sel with
  | all => True
  | only a => x = a
  end.

End Filters.

(** ** Binary64 evaluation of the matchup adjustment

    Rounding to an integer is sensitive to the last bit of its argument, so
    the exact value of [matchupAdj] is that of the IEEE 754 binary64
    evaluation of lines 619-628, not that of the rational idealisation
    [matchupAdjOf]: for one disadvantage insight at win rate 0.35 the
    doubles give [(0.35 - 0.5) * 30 = -4.500000000000001], rounded to -5,
    where exact arithmetic gives -4.5, rounded to -4.  The definitions below
    evaluate the same lines on primitive floats. *)

(** The double of an integer (exact below 2^53). *)
Definition Z2F (z : Z) : PrimFloat.float :=
  if z <? 0 then PrimFloat.opp (PrimFloat.of_uint63 (Uint63.of_Z (- z)))
  else PrimFloat.of_uint63 (Uint63.of_Z z).

(** The double nearest to a rational, as reading its decimal form gives it:
    the correctly rounded quotient of numerator and denominator (both below
    2^53). *)
Definition Q2F (q : Q) : PrimFloat.float :=
  PrimFloat.div (Z2F (Qnum q)) (Z2F (Zpos (Qden q))).

(** The exact value of a finite double.  The infinities are sent beyond
    every clamp; NaN is outside the model. *)
Definition F2Q (x : PrimFloat.float) : Q :=
  match FloatOps.Prim2SF x with
  | SpecFloat.S754_zero _ => 0%Q
  | SpecFloat.S754_infinity s =>
      if s then inject_Z (- 2 ^ 1024) else inject_Z (2 ^ 1024)
  | SpecFloat.S754_nan => 0%Q
  | SpecFloat.S754_finite s m e =>
      ((if s then - inject_Z (Zpos m) else inject_Z (Zpos m)) * Qpower 2 e)%Q
  end.

(** [Math.round] of a double: exact on the value of the double. *)
Definition math_round (x : PrimFloat.float) : Z := js_round (F2Q x).

(** [Math.min(a, b)] and [Math.max(a, b)] on doubles that are not NaN. *)
Definition math_min (a b : PrimFloat.float) : PrimFloat.float :=
  if PrimFloat.ltb b a then b else a.
Definition math_max (a b : PrimFloat.float) : PrimFloat.float :=
  if PrimFloat.ltb a b then b else a.

(** [(m.winRate - 0.5) * 30] *)
Definition contribution_binary64 (m : MatchupInsight) : PrimFloat.float :=
  PrimFloat.mul (PrimFloat.sub (Q2F (winRate m)) (Q2F 0.5)) (Z2F 30).

(** The callback of the [reduce] over the matchup insights. *)
Definition matchupStep_binary64 (sum : PrimFloat.float) (m : MatchupInsight)
  : PrimFloat.float :=
  if advantage m then PrimFloat.add sum (contribution_binary64 m)
  else if disadvantage m then PrimFloat.add sum (contribution_binary64 m)
  else sum.

(** [matchupAdj] of [computeWinProbability], lines 619-628, in binary64. *)
Definition matchupAdj_binary64 (matchupInsights : list MatchupInsight) : Z :=
  match matchupInsights with
  | [] => 0
  | _ :: _ =>
      let totalAdv := fold_left matchupStep_binary64 matchupInsights (Z2F 0) in
      math_round
        (math_max (Z2F (-15))
           (math_min (Z2F 15)
              (PrimFloat.div totalAdv
                 (Z2F (Z.of_nat (List.length matchupInsights))))))
  end.




(** Whether a string is made of decimal digits only.  Such a string names
    no member that a JavaScript object inherits from [Object.prototype]. *)
Fixpoint allDigits (s : string) : bool :=
  match s with
  | EmptyString => true
  | String c rest =>
      (48 <=? Z.of_nat (nat_of_ascii c)) && (Z.of_nat (nat_of_ascii c) <=? 57)
      && allDigits rest
  end.

(** * Properties *)

(** ** Rounding and clamping *)

Lemma js_round_inject_Z (z : Z) : js_round (inject_Z z) = z.
Proof.
  unfold js_round, Qfloor, Qplus, inject_Z. cbn.
  symmetry. apply (Z.div_unique_pos _ 2 z 1); lia.
Qed.

Lemma js_round_comp (x y : Q) : (x == y)%Q -> js_round x = js_round y.
Proof. intros H. unfold js_round. now rewrite H. Qed.

(** Rounding keeps a value between two integers between them. *)
Lemma js_round_between (a b : Z) (v : Q) :
  (inject_Z a <= v)%Q -> (v <= inject_Z b)%Q -> a <= js_round v <= b.
Proof.
  intros Ha Hb. split.
  - rewrite <- (js_round_inject_Z a). unfold js_round.
    apply Qfloor_resp_le. now apply Qplus_le_l.
  - rewrite <- (js_round_inject_Z b). unfold js_round.
    apply Qfloor_resp_le. now apply Qplus_le_l.
Qed.

Lemma qmin_le_l (x y : Q) : (qmin x y <= x)%Q.
Proof.
  unfold qmin. destruct (Qle_bool x y) eqn:E.
  - apply Qle_refl.
  - apply Qlt_le_weak, Qnot_le_lt. intros H.
    apply Qle_bool_iff in H. congruence.
Qed.

Lemma qmin_glb (x y z : Q) : (z <= x)%Q -> (z <= y)%Q -> (z <= qmin x y)%Q.
Proof. intros Hx Hy. unfold qmin. now destruct (Qle_bool x y). Qed.

Lemma qmax_ge_l (x y : Q) : (x <= qmax x y)%Q.
Proof.
  unfold qmax. destruct (Qle_bool x y) eqn:E.
  - now apply Qle_bool_iff.
  - apply Qle_refl.
Qed.

Lemma qmax_lub (x y z : Q) : (x <= z)%Q -> (y <= z)%Q -> (qmax x y <= z)%Q.
Proof. intros Hx Hy. unfold qmax. now destruct (Qle_bool x y). Qed.

(** [Math.round(Math.max(lo, Math.min(hi, x)))] lies in [lo, hi]. *)
Lemma js_round_clamp (lo hi : Z) (x : Q) :
  lo <= hi ->
  lo <= js_round (qmax (inject_Z lo) (qmin (inject_Z hi) x)) <= hi.
Proof.
  intros Hlh. apply js_round_between.
  - apply qmax_ge_l.
  - apply qmax_lub.
    + now rewrite <- Zle_Qle.
    + apply qmin_le_l.
Qed.

(** ** Pace planner *)

(** Case analysis on the style and on the tests of the lane and
    field-strength adjustments; lane tests that exclude each other are
    closed on the way. *)
Ltac pace_cases style lane opponents :=
  destruct style; cbn [paceBase];
  destruct (Z.leb_spec lane 2), (Z.leb_spec 4 lane); try lia;
  destruct opponents as [|? ?];
  repeat match goal with
         | |- context [Qlt_bool ?a ?b] => destruct (Qlt_bool a b)
         end;
  cbn.

(** Every adjustment moves weight between components: the raw total stays
    at the 100 of the base table. *)
Lemma rawPace_total style distance lane opponents :
  paceTotal (rawPace style distance lane opponents) = 100.
Proof.
  unfold rawPace, fieldAdjust, laneAdjust, distanceAdjust, paceTotal.
  rewrite Z.geb_leb.
  destruct (String.eqb distance "500"), (String.eqb distance "1500");
    pace_cases style lane opponents; reflexivity.
Qed.

(** The lowest value a raw component can reach is 14. *)
Lemma rawPace_lower style distance lane opponents :
  let p := rawPace style distance lane opponents in
  14 <= early p /\ 14 <= middle p /\ 14 <= late p.
Proof.
  unfold rawPace, fieldAdjust, laneAdjust, distanceAdjust.
  rewrite Z.geb_leb.
  destruct (String.eqb distance "500") eqn:E5,
           (String.eqb distance "1500") eqn:E15.
  1: { apply String.eqb_eq in E5, E15. congruence. }
  all: pace_cases style lane opponents; lia.
Qed.

Lemma percent_of_100 (z : Z) :
  js_round ((inject_Z z / inject_Z 100) * 100) = z.
Proof.
  rewrite <- (js_round_inject_Z z) at 2.
  apply js_round_comp. field.
Qed.

(** With a raw total of 100 the normalisation changes nothing. *)
Lemma normalizePace_total_100 (p : Pace) :
  paceTotal p = 100 -> normalizePace p = p.
Proof.
  destruct p as [e m l]. unfold paceTotal, normalizePace.
  cbn [early middle late]. intros H. rewrite H, !percent_of_100.
  f_equal. lia.
Qed.

Lemma computePace_raw style distance lane opponents :
  computePace style distance lane opponents
  = rawPace style distance lane opponents.
Proof. apply normalizePace_total_100, rawPace_total. Qed.

(** C1: for every style, distance string, lane and opponent list the pace
    returned by [computePace] sums to exactly 100 and has no negative
    component. *)
Theorem computePace_sum_100_nonneg style distance lane opponents :
  let p := computePace style distance lane opponents in
  early p + middle p + late p = 100
  /\ 0 <= early p /\ 0 <= middle p /\ 0 <= late p.
Proof.
  cbv zeta. rewrite computePace_raw.
  pose proof (rawPace_total style distance lane opponents) as Ht.
  pose proof (rawPace_lower style distance lane opponents) as Hl.
  unfold paceTotal in Ht. cbv zeta in Hl. lia.
Qed.

Lemma Qlt_bool_iff (x y : Q) : Qlt_bool x y = true <-> (x < y)%Q.
Proof.
  unfold Qlt_bool. rewrite negb_true_iff. split.
  - intros H. apply Qnot_le_lt. intros Hle.
    apply Qle_bool_iff in Hle. congruence.
  - intros H. destruct (Qle_bool y x) eqn:E; [|reflexivity].
    apply Qle_bool_iff in E. exfalso. eapply Qlt_not_le; eassumption.
Qed.

Lemma Qlt_bool_false_iff (x y : Q) : Qlt_bool x y = false <-> (y <= x)%Q.
Proof.
  unfold Qlt_bool. rewrite negb_false_iff. apply Qle_bool_iff.
Qed.

(** C2, as stated, fails: against a strong field (average threat 60) the
    late share drops from 33 to 30 and the early share grows; against a weak
    field (average threat 10) the early share drops from 33 to 30 and the
    late share grows. *)
Lemma computePace_field_shift_counterexample :
  let strong := [sampleOpponent "A" balanced 60] in
  let weak := [sampleOpponent "B" balanced 10] in
  (50 < avgThreat strong)%Q
  /\ computePace balanced "1000" 3 [] = mkPace 33 34 33
  /\ computePace balanced "1000" 3 strong = mkPace 35 35 30
  /\ ~ late (computePace balanced "1000" 3 [])
       <= late (computePace balanced "1000" 3 strong)
  /\ (avgThreat weak < 25)%Q
  /\ computePace balanced "1000" 3 weak = mkPace 30 34 36
  /\ ~ early (computePace balanced "1000" 3 [])
       <= early (computePace balanced "1000" 3 weak).
Proof.
  cbv zeta. repeat split; try reflexivity;
    intros H; vm_compute in H; apply H; reflexivity.
Qed.

(** C2, amended: with opponents whose average threat exceeds 50 the
    adjustment takes 3 points from the late share and gives 2 to the early
    and 1 to the middle share (weight moves earlier); with an average below
    25 it takes 3 points from the early share and gives them to the late
    share (weight moves later). *)
Theorem computePace_field_adjustment style distance lane opponents :
  opponents <> [] ->
  let without := computePace style distance lane [] in
  let p := computePace style distance lane opponents in
  ((50 < avgThreat opponents)%Q -> p = shiftPace without 2 1 (-3))
  /\ ((avgThreat opponents < 25)%Q -> p = shiftPace without (-3) 0 3).
Proof.
  intros Hne. cbv zeta. rewrite !computePace_raw. unfold rawPace.
  destruct opponents as [|o os]; [congruence|].
  cbn [fieldAdjust]. split; intros H.
  - apply Qlt_bool_iff in H. now rewrite H.
  - assert (H50 : Qlt_bool 50 (avgThreat (o :: os)) = false).
    { apply Qlt_bool_false_iff. apply Qlt_le_weak.
      eapply Qlt_trans; [exact H | reflexivity]. }
    apply Qlt_bool_iff in H. now rewrite H50, H.
Qed.

Lemma computePace_field_adjustment_witness :
  computePace late_mover "1500" 1 [sampleOpponent "A" front_runner 80]
  = shiftPace (computePace late_mover "1500" 1 []) 2 1 (-3)
  /\ computePace late_mover "1500" 1 [sampleOpponent "B" no_passes 12]
     = shiftPace (computePace late_mover "1500" 1 []) (-3) 0 3.
Proof.
  split.
  - apply (computePace_field_adjustment late_mover "1500" 1
             [sampleOpponent "A" front_runner 80]).
    + discriminate.
    + reflexivity.
  - apply (computePace_field_adjustment late_mover "1500" 1
             [sampleOpponent "B" no_passes 12]).
    + discriminate.
    + reflexivity.
Defined.

(** ** Win probability model *)

(** The logistic curve stays strictly between -1 and 1. *)
Lemma logistic_bounds (x : R) :
  (-1 < 2 / (1 + exp x) - 1 < 1)%R.
Proof.
  pose proof (exp_pos x) as He.
  assert (Hd : (0 < 1 + exp x)%R) by lra.
  assert (Hinv : (0 < / (1 + exp x))%R) by now apply Rinv_0_lt_compat.
  assert (Hlt : (/ (1 + exp x) < 1)%R).
  { rewrite <- Rinv_1 at 2. apply Rinv_lt_contravar; lra. }
  unfold Rdiv. lra.
Qed.

Lemma strengthAdjOf_bounds (d : Q) : -50 <= strengthAdjOf d <= 50.
Proof.
  unfold strengthAdjOf.
  set (s := (2 / (1 + exp (- Q2R d / 20)) - 1)%R).
  pose proof (logistic_bounds (- Q2R d / 20)) as Hs. fold s in Hs.
  pose proof (Zfloor_bound (50 * s + / 2)) as [Hlo Hhi].
  split.
  - assert (H : (IZR (-51) < IZR (Zfloor (50 * s + / 2)))%R) by lra.
    apply lt_IZR in H. lia.
  - assert (H : (IZR (Zfloor (50 * s + / 2)) < IZR 51)%R) by lra.
    apply lt_IZR in H. lia.
Qed.

(** Equal strengths give no adjustment. *)
Lemma strengthAdjOf_zero (d : Q) : (d == 0)%Q -> strengthAdjOf d = 0.
Proof.
  intros Hd. unfold strengthAdjOf.
  rewrite (Qeq_eqR _ _ Hd), RMicromega.Q2R_0.
  replace (- 0 / 20)%R with 0%R by lra. rewrite exp_0.
  apply Zfloor_eq. simpl. lra.
Qed.

Lemma matchupAdjOf_bounds (l : list MatchupInsight) :
  -15 <= matchupAdjOf l <= 15.
Proof.
  unfold matchupAdjOf. destruct l as [|m ms]; [lia|].
  apply (js_round_clamp (-15) 15). lia.
Qed.

(** C3: whatever the profile, lane, distance, opponents, matchup insights
    and lane record (absent or not), the result has [overall] in [1, 99],
    [podium] in [2, 99], [strengthAdj] in [-50, 50] and [matchupAdj] in
    [-15, 15]. *)
Theorem computeWinProbability_bounds mySkater lane distance opponents
    matchupInsights laneAdvData :
  let wp := computeWinProbability mySkater lane distance opponents
              matchupInsights laneAdvData in
  1 <= overall wp <= 99
  /\ 2 <= podium wp <= 99
  /\ -50 <= strengthAdj wp <= 50
  /\ -15 <= matchupAdj wp <= 15.
Proof.
  cbv zeta. unfold computeWinProbability.
  cbn [overall podium strengthAdj matchupAdj].
  repeat split;
    try apply (js_round_clamp 1 99); try apply (js_round_clamp 2 99);
    try apply strengthAdjOf_bounds; try apply matchupAdjOf_bounds; lia.
Qed.

(** C4: without opponents the result is flagged [hasOpponents = false], the
    field average that enters the strength differential is the competitor's
    own composite strength, and the strength adjustment is 0. *)
Theorem computeWinProbability_no_opponents mySkater lane distance
    matchupInsights laneAdvData :
  let wp := computeWinProbability mySkater lane distance []
              matchupInsights laneAdvData in
  hasOpponents wp = false
  /\ avgOppStrengthOf (myStrengthOf mySkater) [] = myStrengthOf mySkater
  /\ strengthAdj wp
     = strengthAdjOf (myStrengthOf mySkater
                      - avgOppStrengthOf (myStrengthOf mySkater) [])
  /\ strengthAdj wp = 0.
Proof.
  cbv zeta. unfold computeWinProbability.
  cbn [hasOpponents strengthAdj avgOppStrengthOf List.length].
  repeat split. apply strengthAdjOf_zero. ring.
Qed.

Lemma Qle_bool_comp (a b c d : Q) :
  (a == b)%Q -> (c == d)%Q -> Qle_bool a c = Qle_bool b d.
Proof.
  intros Hab Hcd.
  destruct (Qle_bool a c) eqn:E1, (Qle_bool b d) eqn:E2; try reflexivity.
  - apply Qle_bool_iff in E1. rewrite Hab, Hcd in E1.
    apply Qle_bool_iff in E1. congruence.
  - apply Qle_bool_iff in E2. rewrite <- Hab, <- Hcd in E2.
    apply Qle_bool_iff in E2. congruence.
Qed.

Lemma qmin_comp (a x y : Q) : (x == y)%Q -> (qmin a x == qmin a y)%Q.
Proof.
  intros H. unfold qmin.
  rewrite (Qle_bool_comp a a x y (Qeq_refl a) H).
  now destruct (Qle_bool a y).
Qed.

Lemma qmax_comp (a x y : Q) : (x == y)%Q -> (qmax a x == qmax a y)%Q.
Proof.
  intros H. unfold qmax.
  rewrite (Qle_bool_comp a a x y (Qeq_refl a) H).
  now destruct (Qle_bool a y).
Qed.



(** ** Matchup analyzer *)

Lemma matchupInsightFor_Some myStyle byStyle opp i :
  matchupInsightFor myStyle byStyle opp = Some i ->
  exists m,
    byStyle (o_style opp) = Some m
    /\ Qle_bool 5 (sm_total m) = true
    /\ opponent i = o_name opp
    /\ oppStyle i = o_style opp
    /\ winRate i = sm_win_rate m
    /\ advantage i = Qlt_bool 0.55 (sm_win_rate m)
    /\ disadvantage i = Qlt_bool (sm_win_rate m) 0.45.
Proof.
  unfold matchupInsightFor.
  destruct (byStyle (o_style opp)) as [m|]; [|discriminate].
  destruct (Qle_bool 5 (sm_total m)) eqn:E; [|discriminate].
  intros H. injection H as <-. exists m. cbn. repeat split; assumption.
Qed.

Lemma matchupInsightFor_None myStyle byStyle opp :
  matchupInsightFor myStyle byStyle opp = None <->
  match byStyle (o_style opp) with
  | Some m => Qle_bool 5 (sm_total m) = false
  | None => True
  end.
Proof.
  unfold matchupInsightFor.
  destruct (byStyle (o_style opp)) as [m|]; [|tauto].
  destruct (Qle_bool 5 (sm_total m)); split; intros H;
    try discriminate; reflexivity.
Qed.

Lemma collectInsights_opponents myStyle byStyle opps :
  map opponent (collectInsights myStyle byStyle opps)
  = map o_name
      (filter (fun o => match byStyle (o_style o) with
                        | Some m => Qle_bool 5 (sm_total m)
                        | None => false
                        end) opps).
Proof.
  induction opps as [|o os IH]; [reflexivity|].
  cbn [collectInsights filter].
  destruct (matchupInsightFor myStyle byStyle o) as [i|] eqn:E.
  - destruct (matchupInsightFor_Some _ _ _ _ E) as (m & -> & -> & Hn & _).
    cbn [map]. now rewrite IH, Hn.
  - apply matchupInsightFor_None in E.
    destruct (byStyle (o_style o)) as [m|]; [rewrite E|]; exact IH.
Qed.

Lemma collectInsights_In myStyle byStyle opps i :
  In i (collectInsights myStyle byStyle opps) ->
  exists opp, In opp opps /\ matchupInsightFor myStyle byStyle opp = Some i.
Proof.
  induction opps as [|o os IH]; cbn [collectInsights]; [intros []|].
  destruct (matchupInsightFor myStyle byStyle o) as [j|] eqn:E.
  - intros [<- | Hin].
    + exists o. split; [now left | exact E].
    + destruct (IH Hin) as (opp & Ho & He). exists opp.
      split; [now right | exact He].
  - intros Hin. destruct (IH Hin) as (opp & Ho & He). exists opp.
    split; [now right | exact He].
Qed.

Lemma collectInsights_length myStyle byStyle opps :
  (List.length (collectInsights myStyle byStyle opps) <= List.length opps)%nat.
Proof.
  induction opps as [|o os IH]; cbn [collectInsights List.length]; [lia|].
  destruct (matchupInsightFor myStyle byStyle o); cbn [List.length]; lia.
Qed.

(** C6: at most three insights are produced; they are, in order, those of
    the opponents among the first three of the list whose style pair has a
    table entry with sample size at least 5 (an opponent without entry, or
    with an entry of sample size below 5, gets none, whatever the win rate
    of the entry); each insight carries the win rate of the entry, is flagged
    advantage exactly when that rate exceeds 0.55 and disadvantage exactly
    when it is below 0.45. *)
Theorem buildMatchupInsights_spec myStyle opponents styleMatchups :
  let ins := buildMatchupInsights myStyle opponents styleMatchups in
  (List.length ins <= 3)%nat
  /\ map opponent ins
     = map o_name
         (filter (hasMatchupData styleMatchups myStyle) (firstn 3 opponents))
  /\ (forall opp,
        hasMatchupData styleMatchups myStyle opp = false <->
        (forall byStyle m,
           styleMatchups myStyle = Some byStyle ->
           byStyle (o_style opp) = Some m -> (sm_total m < 5)%Q))
  /\ (forall i, In i ins ->
        exists opp byStyle m,
          In opp (firstn 3 opponents)
          /\ styleMatchups myStyle = Some byStyle
          /\ byStyle (o_style opp) = Some m
          /\ (5 <= sm_total m)%Q
          /\ opponent i = o_name opp
          /\ winRate i = sm_win_rate m)
  /\ (forall i, In i ins ->
        (advantage i = true <-> (0.55 < winRate i)%Q)
        /\ (disadvantage i = true <-> (winRate i < 0.45)%Q)).
Proof.
  cbv zeta. unfold buildMatchupInsights, hasMatchupData.
  split; [|split; [|split; [|split]]].
  - destruct (styleMatchups myStyle) as [byStyle|]; cbn [List.length]; [|lia].
    etransitivity; [apply collectInsights_length|].
    rewrite length_firstn. apply Nat.le_min_l.
  - destruct (styleMatchups myStyle) as [byStyle|].
    + apply collectInsights_opponents.
    + induction (firstn 3 opponents) as [|o os IH]; [reflexivity|exact IH].
  - intros opp. destruct (styleMatchups myStyle) as [byStyle|].
    + destruct (byStyle (o_style opp)) as [m|] eqn:Em.
      * split.
        -- intros H b m' Hb Hm. injection Hb as <-.
           rewrite Em in Hm. injection Hm as <-.
           apply Qnot_le_lt. intros Hle. apply Qle_bool_iff in Hle. congruence.
        -- intros H. specialize (H byStyle m eq_refl Em).
           destruct (Qle_bool 5 (sm_total m)) eqn:E; [|reflexivity].
           apply Qle_bool_iff in E. exfalso.
           eapply Qlt_not_le; eassumption.
      * split; [intros _ b m' Hb Hm; injection Hb as <-; congruence
               | reflexivity].
    + split; [intros _ b m' Hb; discriminate | reflexivity].
  - intros i Hin. destruct (styleMatchups myStyle) as [byStyle|]; [|destruct Hin].
    destruct (collectInsights_In _ _ _ _ Hin) as (opp & Ho & He).
    destruct (matchupInsightFor_Some _ _ _ _ He)
      as (m & Hm & Ht & Hn & _ & Hw & _).
    exists opp, byStyle, m. apply Qle_bool_iff in Ht. repeat split; assumption.
  - intros i Hin. destruct (styleMatchups myStyle) as [byStyle|]; [|destruct Hin].
    destruct (collectInsights_In _ _ _ _ Hin) as (opp & Ho & He).
    destruct (matchupInsightFor_Some _ _ _ _ He)
      as (m & _ & _ & _ & _ & -> & -> & ->).
    split; apply Qlt_bool_iff.
Qed.

Lemma buildMatchupInsights_spec_witness :
  let opps := [sampleOpponent "A" front_runner 80;
               sampleOpponent "B" balanced 12] in
  exists i,
    In i (buildMatchupInsights late_mover opps
            (style_matchups sampleStrategyData))
    /\ opponent i = "A"
    /\ (0.55 < winRate i)%Q
    /\ advantage i = true.
Proof.
  cbv zeta.
  pose proof (buildMatchupInsights_spec late_mover
                [sampleOpponent "A" front_runner 80;
                 sampleOpponent "B" balanced 12]
                (style_matchups sampleStrategyData)) as (_ & _ & _ & _ & H).
  eexists. split; [left; reflexivity|].
  split; [reflexivity|]. split; [reflexivity|].
  apply (H _ (or_introl eq_refl)). reflexivity.
Defined.

(** ** Lap plan builder *)

Lemma buildLapPlan_length totalLaps hot pace style :
  List.length (buildLapPlan totalLaps hot pace style) = Z.to_nat totalLaps.
Proof.
  unfold buildLapPlan, lapNumbers. now rewrite !length_map, length_seq.
Qed.

(** The item at index [k] is the one the loop builds for lap [k + 1]. *)
Lemma buildLapPlan_nth totalLaps hot pace style (k : nat) :
  (k < Z.to_nat totalLaps)%nat ->
  nth_error (buildLapPlan totalLaps hot pace style) k
  = Some (lapPlanItem totalLaps hot pace style (Z.of_nat (S k))).
Proof.
  intros Hk. unfold buildLapPlan, lapNumbers.
  rewrite !nth_error_map, nth_error_seq.
  destruct (Nat.ltb_spec k (Z.to_nat totalLaps)); [|lia].
  cbn [option_map]. reflexivity.
Qed.

Lemma buildLapPlan_lap totalLaps hot pace style (l : Z) :
  1 <= l <= totalLaps ->
  nth_error (buildLapPlan totalLaps hot pace style) (Z.to_nat (l - 1))
  = Some (lapPlanItem totalLaps hot pace style l).
Proof.
  intros Hl. rewrite buildLapPlan_nth by lia. do 2 f_equal. lia.
Qed.

(** C7, as stated, fails: on a 5-lap plan the final lap reads "Sprint!" and
    the fourth lap of a late mover "Attack!", not "Sprint" and "Attack";
    on a 1-lap plan the final lap is lap 1 and reads "Position" (hold); on a
    2-lap plan the second-to-last lap is lap 1 and reads "Position". *)
Lemma buildLapPlan_fixed_laps_counterexample :
  let pace := computePace late_mover "500" 1 [] in
  map action (buildLapPlan 5 [] pace late_mover)
  = ["Position"; "Hold"; "Hold"; "Attack!"; "Sprint!"]
  /\ nth_error (map action (buildLapPlan 5 [] pace late_mover)) 4
     <> Some "Sprint"
  /\ nth_error (map action (buildLapPlan 5 [] pace late_mover)) 3
     <> Some "Attack"
  /\ map (fun it => (lap it, action it, actionClass it))
         (buildLapPlan 1 [] pace late_mover)
     = [(1, "Position", hold)]
  /\ map (fun it => (lap it, action it, actionClass it))
         (buildLapPlan 2 [] pace late_mover)
     = [(1, "Position", hold); (2, "Sprint!", push)].
Proof.
  cbv zeta. repeat split; try reflexivity; vm_compute; discriminate.
Qed.

(** C7, amended: lap 1 is "Position" (hold) in every plan that has a lap;
    when the plan has at least two laps the final lap is "Sprint!" (push);
    when it has at least three the second-to-last lap is "Attack!" for a
    late mover and "Push" for any other style, with class push; none of
    this depends on the hotspot laps or on the pace. *)
Theorem buildLapPlan_fixed_laps totalLaps hotspotLapNums pace style :
  let plan := buildLapPlan totalLaps hotspotLapNums pace style in
  let item l := nth_error plan (Z.to_nat (l - 1)) in
  (1 <= totalLaps ->
   exists it, item 1 = Some it /\ lap it = 1
              /\ action it = "Position" /\ actionClass it = hold)
  /\ (2 <= totalLaps ->
      exists it, item totalLaps = Some it /\ lap it = totalLaps
                 /\ action it = "Sprint!" /\ actionClass it = push)
  /\ (3 <= totalLaps ->
      exists it, item (totalLaps - 1) = Some it /\ lap it = totalLaps - 1
                 /\ action it = match style with
                                | late_mover => "Attack!"
                                | _ => "Push"
                                end
                 /\ actionClass it = push).
Proof.
  cbv zeta. split; [|split]; intros Hn.
  - eexists. split; [apply buildLapPlan_lap; lia|].
    unfold lapPlanItem. cbn [Z.eqb]. cbn. repeat split.
  - eexists. split; [apply buildLapPlan_lap; lia|].
    unfold lapPlanItem.
    destruct (Z.eqb_spec totalLaps 1); [lia|].
    rewrite Z.eqb_refl. cbn. repeat split.
  - eexists. split; [apply buildLapPlan_lap; lia|].
    unfold lapPlanItem.
    destruct (Z.eqb_spec (totalLaps - 1) 1); [lia|].
    destruct (Z.eqb_spec (totalLaps - 1) totalLaps); [lia|].
    rewrite Z.eqb_refl. cbn [lap action actionClass].
    repeat split. now destruct style.
Qed.

Lemma buildLapPlan_fixed_laps_witness :
  let plan := buildLapPlan 5 [2; 4] (mkPace 25 35 40) late_mover in
  (exists it, nth_error plan 0 = Some it /\ lap it = 1
              /\ action it = "Position" /\ actionClass it = hold)
  /\ (exists it, nth_error plan 4 = Some it /\ lap it = 5
                 /\ action it = "Sprint!" /\ actionClass it = push)
  /\ (exists it, nth_error plan 3 = Some it /\ lap it = 4
                 /\ action it = "Attack!" /\ actionClass it = push).
Proof.
  destruct (buildLapPlan_fixed_laps 5 [2; 4] (mkPace 25 35 40) late_mover)
    as (H1 & H2 & H3).
  split; [|split].
  - apply H1. lia.
  - apply H2. lia.
  - apply H3. lia.
Defined.

(** ** Synthetic competitor builder *)

(** C8, as stated, fails in its last part: of the 80 passes made, 40 go to
    [passes_late], which is exactly half of them and not more. *)
Lemma buildCustomSkater_late_mover_counterexample :
  let st := stats (buildCustomSkater
                     (mkCustomSkaterInput "A" "USA" "🇺🇸" late_mover 8 2 50)) in
  total_passes_made st = 80%Q
  /\ passes_late st = 40%Q
  /\ ~ (total_passes_made st < 2 * passes_late st)%Q.
Proof.
  cbv zeta. repeat split. vm_compute. discriminate.
Qed.

(** C8, amended: for pass rate 8, passed rate 2 and style late mover the
    profile has [net_passes = 60], [avg_passes_per_race = 8] and 80 passes
    made, of which 40 (exactly half, and the largest of the three shares)
    are late, 24 middle and 16 early. *)
Theorem buildCustomSkater_late_mover_scenario nm nat fl t :
  let st := stats (buildCustomSkater
                     (mkCustomSkaterInput nm nat fl late_mover 8 2 t)) in
  net_passes st = 60%Q
  /\ avg_passes_per_race st = 8%Q
  /\ total_races st = 10%Q
  /\ total_passes_made st = 80%Q
  /\ passes_late st = 40%Q
  /\ passes_middle st = 24%Q
  /\ passes_early st = 16%Q
  /\ (2 * passes_late st == total_passes_made st)%Q
  /\ (passes_middle st < passes_late st)%Q
  /\ (passes_early st < passes_late st)%Q.
Proof.
  cbv zeta. repeat split.
Qed.

(** ** Threat evaluator *)

Lemma computeThreatLevel_boundaries :
  computeThreatLevel 59 = medium /\ computeThreatLevel 60 = high
  /\ computeThreatLevel 29 = low /\ computeThreatLevel 30 = medium.
Proof. repeat split. Qed.

Lemma num_or_inject_Z (z : Z) : num_or (inject_Z z) 0 = inject_Z z.
Proof.
  unfold num_or. destruct (Qeq_bool (inject_Z z) 0) eqn:E; [|reflexivity].
  apply Qeq_bool_eq in E. unfold Qeq in E. cbn in E.
  assert (Hz : z = 0) by lia. now subst z.
Qed.

(** On an integer score the level of the record is the classification of
    the score the record carries. *)
Lemma buildOpponentThreat_level_integer skater lane (z : Z) :
  threat_score (stats skater) = inject_Z z ->
  let o := buildOpponentThreat skater lane in
  threatLevel o = computeThreatLevel (o_threat_score o).
Proof.
  intros Hz. cbv zeta. unfold buildOpponentThreat.
  cbn [threatLevel o_threat_score].
  now rewrite Hz, num_or_inject_Z, js_round_inject_Z.
Qed.

(** C9: the level is computed from the raw score while the record keeps
    the rounded score.  For a raw score of 59.5 the record carries
    [threat_score = 60] with level medium, although 60 classifies as high;
    for 29.5 it carries 30 with level low, although 30 classifies as
    medium. *)
Theorem buildOpponentThreat_level_mismatch :
  let a := buildOpponentThreat (sampleSkater "A" balanced 59.5) None in
  let b := buildOpponentThreat (sampleSkater "B" balanced 29.5) None in
  o_threat_score a = 60%Q /\ threatLevel a = medium
  /\ computeThreatLevel (o_threat_score a) = high
  /\ o_threat_score b = 30%Q /\ threatLevel b = low
  /\ computeThreatLevel (o_threat_score b) = medium.
Proof.
  cbv zeta. repeat split.
Qed.

(** ** Worked scenarios *)

(** Distance 500, lane 1, front runner, no opponents: five laps, an
    early-heavy pace, lap 1 "Position" and lap 5 "Sprint!". *)
Example scenario_front_runner_500 :
  totalLapsOf "500" = 5
  /\ computePace front_runner "500" 1 [] = mkPace 42 38 20
  /\ map action
       (buildLapPlan (totalLapsOf "500") []
          (computePace front_runner "500" 1 []) front_runner)
     = ["Position"; "Hold"; "Hold"; "Push"; "Sprint!"].
Proof. repeat split. Qed.

(** An unknown distance falls back to nine laps. *)
Example totalLapsOf_unknown : totalLapsOf "3000" = 9.
Proof. reflexivity. Qed.

(** The entry for a balanced opponent has win rate 0.9 but only 3 samples:
    no insight is produced for it. *)
Example buildMatchupInsights_small_sample :
  map opponent
    (buildMatchupInsights late_mover
       [sampleOpponent "A" front_runner 80; sampleOpponent "B" balanced 12]
       (style_matchups sampleStrategyData))
  = ["A"].
Proof. reflexivity. Qed.

(** Without opponents, insights and lane data the estimate is the default
    lane base: 20 to win, 40 for the podium. *)
Example computeWinProbability_defaults mySkater lane distance :
  let wp := computeWinProbability mySkater lane distance [] [] None in
  overall wp = 20 /\ podium wp = 40 /\ laneBase wp = 20
  /\ explanation wp
     = "Lane " ++ show_Z lane ++ " base only (no opponents selected)".
Proof.
  cbv zeta. unfold computeWinProbability.
  cbn [overall podium laneBase explanation avgOppStrengthOf laneBaseOf
       laneTop2Of matchupAdjOf List.length].
  rewrite strengthAdjOf_zero by ring. repeat split.
Qed.

(** Opponents are ranked by decreasing threat; equal threats keep the order
    in which they were given. *)
Example sortStable_by_threat :
  map o_name
    (sortStable (fun a b => Qlt_bool (o_threat_score a) (o_threat_score b))
       [sampleOpponent "A" balanced 50; sampleOpponent "B" balanced 80;
        sampleOpponent "C" balanced 50])
  = ["B"; "A"; "C"].
Proof. reflexivity. Qed.

(** The binary64 evaluation on ordinary win rates.  One disadvantage at
    0.35 gives -5 (the rational idealisation gives -4); an advantage at 0.6
    next to an insight without flag gives 1 (the idealisation gives 2); where
    the mean is not within rounding error of a half-integer the two
    agree. *)
Example matchupAdj_binary64_samples :
  let dis035 := mkMatchupInsight "A" "🇺🇸" false true 0.35 late_mover
                  front_runner "n" in
  let adv060 := mkMatchupInsight "B" "🇺🇸" true false 0.6 late_mover
                  front_runner "n" in
  let even050 := mkMatchupInsight "C" "🇺🇸" false false 0.5 late_mover
                   balanced "n" in
  let adv070 := mkMatchupInsight "D" "🇺🇸" true false 0.7 late_mover
                  mid_surge "n" in
  matchupAdj_binary64 [dis035] = -5 /\ matchupAdjOf [dis035] = -4
  /\ matchupAdj_binary64 [adv060; even050] = 1
  /\ matchupAdjOf [adv060; even050] = 2
  /\ matchupAdj_binary64 [adv070; dis035] = 1
  /\ matchupAdjOf [adv070; dis035] = 1
  /\ matchupAdj_binary64 [even050] = 0.
Proof. cbv zeta. repeat split; vm_compute; reflexivity. Qed.

(** * Further properties of the engine *)

(** ** Ranking of the opponents *)

Section StableSort.

Context {A : Type} (key : A -> Q).

(** The comparator [(a, b) => key(b) - key(a)] of both sorts of the engine
    is positive exactly when [key a < key b]; [b] may follow [a] in a
    ranking by decreasing key when [key b <= key a]. *)
Local Abbreviation byKeyDesc := (fun a b : A => Qlt_bool (key a) (key b)).
Local Abbreviation ranked := (fun a b : A => (key b <= key a)%Q).

Lemma insertStable_perm (c : A -> A -> bool) (x : A) (l : list A) :
  Permutation (insertStable c x l) (x :: l).
Proof.
  induction l as [|y l IH]; cbn [insertStable]; [reflexivity|].
  destruct (c x y); [|reflexivity].
  rewrite IH. apply perm_swap.
Qed.

Lemma sortStable_perm (c : A -> A -> bool) (l : list A) :
  Permutation (sortStable c l) l.
Proof.
  induction l as [|x l IH]; cbn; [reflexivity|].
  change (fold_right (insertStable c) [] l) with (sortStable c l).
  rewrite insertStable_perm. now constructor.
Qed.

Lemma insertStable_sorted (x : A) (l : list A) :
  StronglySorted ranked l -> StronglySorted ranked (insertStable byKeyDesc x l).
Proof.
  induction 1 as [|y l Hl IH Hy]; cbn [insertStable].
  - repeat constructor.
  - cbv beta. destruct (Qlt_bool (key x) (key y)) eqn:E.
    + apply Qlt_bool_iff in E. constructor; [exact IH|].
      apply Forall_forall. intros z Hz.
      apply (Permutation_in _ (insertStable_perm byKeyDesc x l)) in Hz.
      destruct Hz as [<- | Hz].
      * now apply Qlt_le_weak.
      * rewrite Forall_forall in Hy. now apply Hy.
    + apply Qlt_bool_false_iff in E. constructor.
      * now constructor.
      * constructor; [exact E|].
        rewrite Forall_forall in Hy |- *. intros z Hz.
        cbv beta. eapply Qle_trans; [apply (Hy z Hz) | exact E].
Qed.

Lemma sortStable_sorted (l : list A) :
  StronglySorted ranked (sortStable byKeyDesc l).
Proof.
  induction l as [|x l IH]; cbn; [constructor|].
  now apply insertStable_sorted.
Qed.

(** A list that is already ranked is left as it is, ties included. *)
Lemma sortStable_ranked_id (l : list A) :
  StronglySorted ranked l -> sortStable byKeyDesc l = l.
Proof.
  induction 1 as [|x l Hl IH Hx]; [reflexivity|].
  cbn. change (fold_right (insertStable byKeyDesc) [] l)
    with (sortStable byKeyDesc l).
  rewrite IH. destruct l as [|y l']; [reflexivity|].
  cbn [insertStable]. cbv beta.
  apply Forall_inv in Hx. cbv beta in Hx.
  apply Qlt_bool_false_iff in Hx. now rewrite Hx.
Qed.

(** The elements kept by a cut of a ranked list dominate those cut off. *)
Lemma ranked_firstn_skipn (n : nat) (l : list A) (a b : A) :
  StronglySorted ranked l ->
  In a (firstn n l) -> In b (skipn n l) -> (key b <= key a)%Q.
Proof.
  intros Hs. revert n. induction Hs as [|x l Hl IH Hx]; intros n Ha Hb.
  - destruct n; destruct Ha.
  - destruct n as [|n]; [destruct Ha|].
    cbn [firstn skipn] in Ha, Hb. destruct Ha as [<- | Ha].
    + rewrite Forall_forall in Hx. apply Hx.
      rewrite <- (firstn_skipn n l). apply in_or_app. now right.
    + now apply (IH n).
Qed.

End StableSort.

(** X1: the opponent list of the result is a reordering of the opponents
    passed in (none lost, none repeated), ranked by non-increasing threat
    score. *)
Theorem generateStrategy_opponents_ranked (numberToString : Q -> string)
    mySkater distance lane opponents models :
  let ranked :=
    opponentThreats
      (generateStrategy numberToString mySkater distance lane opponents models)
  in
  Permutation ranked opponents
  /\ StronglySorted
       (fun a b => (o_threat_score b <= o_threat_score a)%Q) ranked.
Proof.
  cbv zeta. unfold generateStrategy. cbn [opponentThreats]. split.
  - apply sortStable_perm.
  - apply (sortStable_sorted o_threat_score).
Qed.

(** X2: opponents that are passed in by non-increasing threat score keep
    their order in the result, opponents of equal threat included. *)
Theorem generateStrategy_keeps_ranked_order (numberToString : Q -> string)
    mySkater distance lane opponents models :
  StronglySorted
    (fun a b => (o_threat_score b <= o_threat_score a)%Q) opponents ->
  opponentThreats
    (generateStrategy numberToString mySkater distance lane opponents models)
  = opponents.
Proof.
  intros Hs. unfold generateStrategy. cbn [opponentThreats].
  now apply (sortStable_ranked_id o_threat_score).
Qed.

Lemma generateStrategy_keeps_ranked_order_witness :
  map o_name
    (opponentThreats
       (generateStrategy (fun q => show_Z (Qfloor q))
          (sampleSkater "Me" late_mover 70) "500" 1
          [sampleOpponent "A" balanced 80; sampleOpponent "B" balanced 50;
           sampleOpponent "C" front_runner 50]
          None))
  = ["A"; "B"; "C"].
Proof.
  rewrite generateStrategy_keeps_ranked_order; [reflexivity|].
  repeat constructor; discriminate.
Defined.

(** X3: the matchup insights of the result are about opponents among the
    first three of the ranking, and no opponent ranked after them has a
    higher threat score than one of these three. *)
Theorem generateStrategy_insights_top3 (numberToString : Q -> string)
    mySkater distance lane opponents models :
  let r :=
    generateStrategy numberToString mySkater distance lane opponents models in
  incl (map opponent (matchupInsights r))
       (map o_name (firstn 3 (opponentThreats r)))
  /\ (forall a b,
        In a (firstn 3 (opponentThreats r)) ->
        In b (skipn 3 (opponentThreats r)) ->
        (o_threat_score b <= o_threat_score a)%Q).
Proof.
  cbv zeta. unfold generateStrategy.
  cbn [matchupInsights opponentThreats]. split.
  - unfold buildMatchupInsights.
    match goal with
    | |- context [match ?t ?s with Some _ => _ | None => _ end] =>
        destruct (t s) as [byStyle|]
    end; [|intros x []].
    rewrite collectInsights_opponents. intros x Hx.
    apply in_map_iff in Hx. destruct Hx as (o & <- & Ho).
    apply filter_In in Ho. apply in_map. tauto.
  - intros a b. apply (ranked_firstn_skipn o_threat_score).
    apply (sortStable_sorted o_threat_score).
Qed.

(** ** Advice generator *)

Lemma hasIcon_app ic l1 l2 :
  hasIcon ic (l1 ++ l2) = hasIcon ic l1 || hasIcon ic l2.
Proof. apply existsb_app. Qed.

(** Case analysis on every test of an advice rule. *)
Ltac rule_cases :=
  repeat match goal with
         | |- context [match ?x with _ => _ end] => destruct x
         end;
  try reflexivity.

Section AdviceRules.

Variable numberToString : Q -> string.

Lemma filter_nonempty_iff {A : Type} (f : A -> bool) (l : list A) :
  filter f l <> [] <-> exists x, In x l /\ f x = true.
Proof.
  split.
  - destruct (filter f l) as [|x r] eqn:E; [congruence|]. intros _.
    exists x. apply filter_In. rewrite E. now left.
  - intros (x & Hx & Hf) E.
    assert (Hin : In x (filter f l)) by (apply filter_In; tauto).
    rewrite E in Hin. destruct Hin.
Qed.

Lemma penaltyAdvice_icon opponents :
  hasIcon "🟡" (penaltyAdvice opponents) = true
  <-> exists o, In o opponents /\ (0.15 < o_penalty_rate o)%Q.
Proof.
  unfold penaltyAdvice.
  pose proof (filter_nonempty_iff
                (fun o => Qlt_bool 0.15 (o_penalty_rate o)) opponents) as H.
  destruct (filter _ opponents) as [|x r].
  - split; [discriminate|]. intros (o & Ho & Hr).
    exfalso. apply (proj2 H); [|reflexivity].
    exists o. split; [exact Ho | now apply Qlt_bool_iff].
  - split; [intros _ | reflexivity].
    destruct (proj1 H) as (o & Ho & Hr); [discriminate|].
    exists o. split; [exact Ho | now apply Qlt_bool_iff].
Qed.

Lemma topThreatAdvice_icon opponents :
  hasIcon "🎯" (topThreatAdvice numberToString opponents) = true
  <-> exists o rest, opponents = o :: rest /\ (50 <= o_threat_score o)%Q.
Proof.
  unfold topThreatAdvice. destruct opponents as [|o rest].
  - split; [discriminate|]. intros (o & r & H & _). discriminate.
  - destruct (Qle_bool 50 (o_threat_score o)) eqn:E.
    + split; [intros _ | reflexivity].
      exists o, rest. split; [reflexivity | now apply Qle_bool_iff].
    + split; [discriminate|]. intros (o' & r & H & Hle).
      injection H as <- <-. apply Qle_bool_iff in Hle. congruence.
Qed.

(** The icon of a rule other than the penalty rule is never the penalty
    icon, and likewise for the top-threat icon. *)
Lemma other_rules_icons (ic : string) style distance lane laneAdvData
    opponents pace timing hotspots matchups winProb :
  ic = "🟡" \/ ic = "🎯" ->
  hasIcon ic (winProbAdvice lane distance laneAdvData winProb) = false
  /\ hasIcon ic (timingAdvice numberToString distance timing) = false
  /\ hasIcon ic (hotspotAdvice hotspots) = false
  /\ hasIcon ic (match styleAdvice (totalLapsOf distance) style with
                 | Some a => [a]
                 | None => []
                 end) = false
  /\ hasIcon ic (matchupAdvice matchups) = false
  /\ hasIcon ic (crashAdvice opponents) = false
  /\ hasIcon ic [paceAdvice pace] = false.
Proof.
  intros [-> | ->];
    unfold winProbAdvice, timingAdvice, hotspotAdvice, matchupAdvice,
      crashAdvice, paceAdvice;
    repeat split; try (destruct style; reflexivity); rule_cases.
Qed.

(** X4: whatever the inputs, the advice list ends with the pace summary and
    has between one and ten items. *)
Theorem generateAdvice_ends_with_pace style distance lane laneAdvData
    opponents pace timing hotspots matchups winProb :
  let advice :=
    generateAdvice numberToString style distance lane laneAdvData opponents
      pace timing hotspots matchups winProb in
  (exists rules, advice = rules ++ [paceAdvice pace])%list
  /\ (1 <= List.length advice <= 10)%nat.
Proof.
  cbv zeta. unfold generateAdvice. split.
  - eexists. rewrite !app_assoc. reflexivity.
  - rewrite !length_app.
    assert (H1 : (List.length
                    (winProbAdvice lane distance laneAdvData winProb) <= 2)%nat)
      by (unfold winProbAdvice; rule_cases; cbn; lia).
    assert (H2 : (List.length
                    (topThreatAdvice numberToString opponents) <= 1)%nat)
      by (unfold topThreatAdvice; rule_cases; cbn; lia).
    assert (H3 : (List.length
                    (timingAdvice numberToString distance timing) <= 1)%nat)
      by (unfold timingAdvice; rule_cases; cbn; lia).
    assert (H4 : (List.length (hotspotAdvice hotspots) <= 1)%nat)
      by (unfold hotspotAdvice; rule_cases; cbn; lia).
    assert (H5 : (List.length (matchupAdvice matchups) <= 1)%nat)
      by (unfold matchupAdvice; rule_cases; cbn; lia).
    assert (H6 : (List.length (penaltyAdvice opponents) <= 1)%nat)
      by (unfold penaltyAdvice; rule_cases; cbn; lia).
    assert (H7 : (List.length (crashAdvice opponents) <= 1)%nat)
      by (unfold crashAdvice; rule_cases; cbn; lia).
    destruct (styleAdvice (totalLapsOf distance) style); cbn [List.length]; lia.
Qed.

(** X5: the advice holds a penalty warning (icon 🟡) exactly when some
    opponent has a penalty rate above 0.15; a rate of exactly 0.15 or less
    gives none. *)
Theorem generateAdvice_penalty_warning style distance lane laneAdvData
    opponents pace timing hotspots matchups winProb :
  hasIcon "🟡"
    (generateAdvice numberToString style distance lane laneAdvData opponents
       pace timing hotspots matchups winProb) = true
  <-> exists o, In o opponents /\ (0.15 < o_penalty_rate o)%Q.
Proof.
  rewrite <- penaltyAdvice_icon. unfold generateAdvice.
  destruct (other_rules_icons "🟡" style distance lane laneAdvData opponents
              pace timing hotspots matchups winProb (or_introl eq_refl))
    as (H1 & H2 & H3 & H4 & H5 & H6 & H7).
  assert (H0 : hasIcon "🟡" (topThreatAdvice numberToString opponents) = false)
    by (unfold topThreatAdvice; rule_cases).
  rewrite !hasIcon_app, H0, H1, H2, H3, H4, H5, H6, H7.
  cbn [orb]. now rewrite orb_false_r.
Qed.

End AdviceRules.

(** The head of a ranking has the highest key. *)
Lemma sortStable_head_max {A : Type} (key : A -> Q) (l : list A) h rest x :
  sortStable (fun a b => Qlt_bool (key a) (key b)) l = h :: rest ->
  In x l -> (key x <= key h)%Q.
Proof.
  intros E Hx.
  pose proof (sortStable_sorted key l) as Hs.
  rewrite E in Hs.
  apply (Permutation_in _
           (Permutation_sym (sortStable_perm
                               (fun a b => Qlt_bool (key a) (key b)) l)))
    in Hx.
  rewrite E in Hx. destruct Hx as [<- | Hx]; [apply Qle_refl|].
  apply StronglySorted_inv in Hs. destruct Hs as [_ Hh].
  rewrite Forall_forall in Hh. now apply Hh.
Qed.

(** X6: the advice of [generateStrategy] holds a top-threat warning (icon
    🎯) exactly when some opponent, in whatever position of the list passed
    in, has a threat score of at least 50. *)
Theorem generateStrategy_top_threat_warning (numberToString : Q -> string)
    mySkater distance lane opponents models :
  hasIcon "🎯"
    (advice
       (generateStrategy numberToString mySkater distance lane opponents
          models)) = true
  <-> exists o, In o opponents /\ (50 <= o_threat_score o)%Q.
Proof.
  unfold generateStrategy. cbn [advice]. unfold generateAdvice.
  set (sorted := sortStable _ opponents).
  match goal with
  | |- context [winProbAdvice ?l ?d ?a ?w] =>
      set (wp := w); set (lad := a)
  end.
  match goal with
  | |- context [timingAdvice _ _ ?t] => set (timing := t)
  end.
  match goal with
  | |- context [hotspotAdvice ?h] => set (hotspots := h)
  end.
  match goal with
  | |- context [matchupAdvice ?m] => set (matchups := m)
  end.
  match goal with
  | |- context [paceAdvice ?p] => set (pace := p)
  end.
  destruct (other_rules_icons numberToString "🎯" (style (stats mySkater))
              distance lane lad sorted pace timing hotspots matchups wp
              (or_intror eq_refl))
    as (H1 & H2 & H3 & H4 & H5 & H6 & H7).
  assert (H0 : hasIcon "🎯" (penaltyAdvice sorted) = false)
    by (unfold penaltyAdvice; rule_cases).
  rewrite !hasIcon_app, H0, H1, H2, H3, H4, H5, H6, H7.
  cbn [orb]. rewrite !orb_false_r, topThreatAdvice_icon.
  split.
  - intros (o & rest & E & Ho). exists o. split; [|exact Ho].
    apply (Permutation_in _
             (sortStable_perm
                (fun a b => Qlt_bool (o_threat_score a) (o_threat_score b))
                opponents)).
    fold sorted. rewrite E. now left.
  - intros (o & Hin & Ho). destruct sorted as [|h rest] eqn:E.
    + apply (Permutation_in _
               (Permutation_sym (sortStable_perm
                  (fun a b => Qlt_bool (o_threat_score a) (o_threat_score b))
                  opponents))) in Hin.
      unfold sorted in E. rewrite E in Hin. destruct Hin.
    + exists h, rest. split; [reflexivity|].
      eapply Qle_trans; [exact Ho|].
      apply (sortStable_head_max o_threat_score opponents h rest o E Hin).
Qed.

(** ** Win probability model: strength and monotonicity *)

Lemma qmin_mono (a x y : Q) : (x <= y)%Q -> (qmin a x <= qmin a y)%Q.
Proof.
  intros H. apply qmin_glb; [apply qmin_le_l|].
  unfold qmin. destruct (Qle_bool a x) eqn:E.
  - apply Qle_bool_iff in E. now apply Qle_trans with x.
  - exact H.
Qed.

Lemma qmax_mono (a b x y : Q) :
  (a <= b)%Q -> (x <= y)%Q -> (qmax a x <= qmax b y)%Q.
Proof.
  intros Hab Hxy. apply qmax_lub.
  - apply Qle_trans with b; [exact Hab | apply qmax_ge_l].
  - apply Qle_trans with y; [exact Hxy|].
    unfold qmax. destruct (Qle_bool b y) eqn:E; [apply Qle_refl|].
    apply Qlt_le_weak, Qnot_le_lt. intros H.
    apply Qle_bool_iff in H. congruence.
Qed.

Lemma js_round_mono (x y : Q) : (x <= y)%Q -> js_round x <= js_round y.
Proof.
  intros H. unfold js_round. apply Qfloor_resp_le. now apply Qplus_le_l.
Qed.

Lemma clamp_0_100 (v : Q) : (0 <= qmin 100 (qmax 0 v) <= 100)%Q.
Proof.
  split; [|apply qmin_le_l].
  apply qmin_glb; [discriminate | apply qmax_ge_l].
Qed.

(** X7: the composite strength of a profile lies in [0, 100], and so does
    the field average it is compared with, for an empty as for a non-empty
    opponent list. *)
Theorem strengths_in_0_100 mySkater opponents :
  (0 <= myStrengthOf mySkater <= 100)%Q
  /\ (0 <= avgOppStrengthOf (myStrengthOf mySkater) opponents <= 100)%Q.
Proof.
  assert (Hme : (0 <= myStrengthOf mySkater <= 100)%Q)
    by apply clamp_0_100.
  split; [exact Hme|].
  destruct opponents as [|o os]; [exact Hme | apply clamp_0_100].
Qed.

(** The logistic curve of the strength adjustment grows with the gap. *)
Lemma strengthAdjOf_mono (d1 d2 : Q) :
  (d1 <= d2)%Q -> strengthAdjOf d1 <= strengthAdjOf d2.
Proof.
  intros H. apply Qle_Rle in H. unfold strengthAdjOf. apply Zfloor_le.
  set (x1 := (- Q2R d1 / 20)%R). set (x2 := (- Q2R d2 / 20)%R).
  assert (Hx : (x2 <= x1)%R) by (unfold x1, x2; lra).
  assert (He : (exp x2 <= exp x1)%R).
  { destruct Hx as [Hlt | ->]; [|lra]. left. now apply exp_increasing. }
  pose proof (exp_pos x1) as P1. pose proof (exp_pos x2) as P2.
  assert (Hi : (/ (1 + exp x1) <= / (1 + exp x2))%R)
    by (apply Rinv_le_contravar; lra).
  unfold Rdiv. lra.
Qed.

(** X8: of two profiles set against the same lane, opponents and matchup
    insights, the one with the higher composite strength never gets a lower
    strength adjustment, win estimate or podium estimate. *)
Theorem computeWinProbability_monotone_in_strength skater1 skater2 lane
    distance opponents matchupInsights laneAdvData :
  (myStrengthOf skater1 <= myStrengthOf skater2)%Q ->
  let wp1 := computeWinProbability skater1 lane distance opponents
               matchupInsights laneAdvData in
  let wp2 := computeWinProbability skater2 lane distance opponents
               matchupInsights laneAdvData in
  strengthAdj wp1 <= strengthAdj wp2
  /\ overall wp1 <= overall wp2
  /\ podium wp1 <= podium wp2.
Proof.
  intros Hs. cbv zeta. unfold computeWinProbability.
  cbn [strengthAdj overall podium].
  set (a1 := strengthAdjOf _). set (a2 := strengthAdjOf _).
  assert (Ha : a1 <= a2).
  { unfold a1, a2. destruct opponents as [|o os].
    - cbn [avgOppStrengthOf].
      rewrite !strengthAdjOf_zero by ring. lia.
    - apply strengthAdjOf_mono. cbn [avgOppStrengthOf].
      now apply Qplus_le_l. }
  split; [exact Ha|]. split.
  - apply js_round_mono, qmax_mono; [apply Qle_refl|].
    apply qmin_mono. rewrite <- Zle_Qle. lia.
  - apply js_round_mono, qmax_mono; [apply Qle_refl|].
    apply qmin_mono. rewrite Zle_Qle in Ha. Lqa.lra.
Qed.

Lemma computeWinProbability_monotone_in_strength_witness :
  let weak := sampleSkater "W" balanced 20 in
  let strong := sampleSkater "S" balanced 90 in
  let opps := [sampleOpponent "A" front_runner 60] in
  overall (computeWinProbability weak 1 "500" opps [] None)
  <= overall (computeWinProbability strong 1 "500" opps [] None).
Proof.
  cbv zeta.
  assert (H : (myStrengthOf (sampleSkater "W" balanced 20)
               <= myStrengthOf (sampleSkater "S" balanced 90))%Q)
    by (vm_compute; discriminate).
  exact (proj1 (proj2 (computeWinProbability_monotone_in_strength
                         (sampleSkater "W" balanced 20)
                         (sampleSkater "S" balanced 90) 1 "500"
                         [sampleOpponent "A" front_runner 60] [] None H))).
Defined.

(** X9: against opponents, the strength adjustment has the sign of the
    strength gap: it is not negative when the profile is at least as strong
    as the field average, and not positive when it is at most as strong. *)
Theorem computeWinProbability_strengthAdj_sign mySkater lane distance
    opponents matchupInsights laneAdvData :
  let wp := computeWinProbability mySkater lane distance opponents
              matchupInsights laneAdvData in
  let avg := avgOppStrengthOf (myStrengthOf mySkater) opponents in
  ((avg <= myStrengthOf mySkater)%Q -> 0 <= strengthAdj wp)
  /\ ((myStrengthOf mySkater <= avg)%Q -> strengthAdj wp <= 0).
Proof.
  cbv zeta. unfold computeWinProbability. cbn [strengthAdj].
  pose proof (strengthAdjOf_zero 0 (Qeq_refl 0)) as Hz.
  split; intros H.
  - rewrite <- Hz. apply strengthAdjOf_mono. Lqa.lra.
  - etransitivity; [|apply Z.eq_le_incl, Hz].
    apply strengthAdjOf_mono. Lqa.lra.
Qed.

Lemma computeWinProbability_strengthAdj_sign_witness :
  let strong := sampleSkater "S" balanced 90 in
  let weak := sampleSkater "W" balanced 10 in
  0 <= strengthAdj (computeWinProbability strong 1 "500"
                      [sampleOpponent "A" front_runner 20] [] None)
  /\ strengthAdj (computeWinProbability weak 1 "500"
                    [sampleOpponent "B" front_runner 90] [] None) <= 0.
Proof.
  cbv zeta. split.
  - refine (proj1 (computeWinProbability_strengthAdj_sign
                     (sampleSkater "S" balanced 90) 1 "500"
                     [sampleOpponent "A" front_runner 20] [] None) _).
    vm_compute. discriminate.
  - refine (proj2 (computeWinProbability_strengthAdj_sign
                     (sampleSkater "W" balanced 10) 1 "500"
                     [sampleOpponent "B" front_runner 90] [] None) _).
    vm_compute. discriminate.
Defined.

(** X10: when the top-2 base of the lane exceeds its win base by at least
    18 points (as the defaults 40 and 20 do when the lane has no record),
    the podium estimate is never below the win estimate. *)
Theorem computeWinProbability_podium_ge_overall mySkater lane distance
    opponents matchupInsights laneAdvData :
  laneBaseOf laneAdvData + 18 <= laneTop2Of laneAdvData ->
  let wp := computeWinProbability mySkater lane distance opponents
              matchupInsights laneAdvData in
  overall wp <= podium wp.
Proof.
  intros Hl. cbv zeta. unfold computeWinProbability. cbn [overall podium].
  set (s := strengthAdjOf _).
  pose proof (strengthAdjOf_bounds
                (myStrengthOf mySkater
                 - avgOppStrengthOf (myStrengthOf mySkater) opponents))
    as [_ Hs]. fold s in Hs.
  pose proof (matchupAdjOf_bounds matchupInsights) as [_ Hm].
  apply js_round_mono, qmax_mono; [discriminate|]. apply qmin_mono.
  rewrite !inject_Z_plus.
  rewrite Zle_Qle in Hs, Hm, Hl. rewrite inject_Z_plus in Hl.
  change (inject_Z 50) with 50%Q in Hs.
  change (inject_Z 15) with 15%Q in Hm.
  change (inject_Z 18) with 18%Q in Hl.
  Lqa.lra.
Qed.

Lemma computeWinProbability_podium_ge_overall_witness :
  overall (computeWinProbability (sampleSkater "S" balanced 90) 3 "1000"
             [sampleOpponent "A" front_runner 20] [] None)
  <= podium (computeWinProbability (sampleSkater "S" balanced 90) 3 "1000"
               [sampleOpponent "A" front_runner 20] [] None).
Proof.
  refine (computeWinProbability_podium_ge_overall
            (sampleSkater "S" balanced 90) 3 "1000"
            [sampleOpponent "A" front_runner 20] [] None _).
  vm_compute. discriminate.
Defined.

(** The contributions of insights that come out of the matchup analyzer
    have the sign of their flag. *)
Lemma fold_matchupStep_nonneg (l : list MatchupInsight) (acc : Q) :
  (0 <= acc)%Q ->
  (forall i, In i l -> advantage i = true -> (0.5 <= winRate i)%Q) ->
  (forall i, In i l -> disadvantage i = false) ->
  (0 <= fold_left matchupStep l acc)%Q.
Proof.
  revert acc. induction l as [|m ms IH]; intros acc Hacc Hadv Hdis;
    cbn [fold_left]; [exact Hacc|].
  apply IH.
  - unfold matchupStep. destruct (advantage m) eqn:Ea.
    + pose proof (Hadv m (or_introl eq_refl) Ea). Lqa.lra.
    + now rewrite (Hdis m (or_introl eq_refl)).
  - intros i Hi. apply Hadv. now right.
  - intros i Hi. apply Hdis. now right.
Qed.

Lemma fold_matchupStep_nonpos (l : list MatchupInsight) (acc : Q) :
  (acc <= 0)%Q ->
  (forall i, In i l -> disadvantage i = true -> (winRate i <= 0.5)%Q) ->
  (forall i, In i l -> advantage i = false) ->
  (fold_left matchupStep l acc <= 0)%Q.
Proof.
  revert acc. induction l as [|m ms IH]; intros acc Hacc Hdis Hadv;
    cbn [fold_left]; [exact Hacc|].
  apply IH.
  - unfold matchupStep. rewrite (Hadv m (or_introl eq_refl)).
    destruct (disadvantage m) eqn:Ed; [|exact Hacc].
    pose proof (Hdis m (or_introl eq_refl) Ed). Lqa.lra.
  - intros i Hi. apply Hdis. now right.
  - intros i Hi. apply Hadv. now right.
Qed.

Lemma Qdiv_length_nonneg (x : Q) (n : nat) :
  (0 <= x)%Q -> (0 <= x / inject_Z (Z.of_nat (S n)))%Q.
Proof.
  intros H. apply Qle_shift_div_l.
  - rewrite <- (Zlt_Qlt 0). lia.
  - now rewrite Qmult_0_l.
Qed.

Lemma Qdiv_length_nonpos (x : Q) (n : nat) :
  (x <= 0)%Q -> (x / inject_Z (Z.of_nat (S n)) <= 0)%Q.
Proof.
  intros H. apply Qle_shift_div_r.
  - rewrite <- (Zlt_Qlt 0). lia.
  - now rewrite Qmult_0_l.
Qed.

(** X11: fed with the insights of the matchup analyzer, the matchup
    adjustment is not negative when none of them is a disadvantage, and not
    positive when none of them is an advantage. *)
Theorem matchupAdj_sign_of_insights mySkater lane distance opponents
    laneAdvData myStyle styleMatchups :
  let insights := buildMatchupInsights myStyle opponents styleMatchups in
  let wp := computeWinProbability mySkater lane distance opponents insights
              laneAdvData in
  ((forall i, In i insights -> disadvantage i = false) -> 0 <= matchupAdj wp)
  /\ ((forall i, In i insights -> advantage i = false) -> matchupAdj wp <= 0).
Proof.
  cbv zeta. unfold computeWinProbability. cbn [matchupAdj].
  set (insights := buildMatchupInsights myStyle opponents styleMatchups).
  assert (Hflags : forall i, In i insights ->
            (advantage i = true -> (0.5 <= winRate i)%Q)
            /\ (disadvantage i = true -> (winRate i <= 0.5)%Q)).
  { intros i Hi. unfold insights, buildMatchupInsights in Hi.
    destruct (styleMatchups myStyle) as [byStyle|]; [|destruct Hi].
    destruct (collectInsights_In _ _ _ _ Hi) as (opp & _ & He).
    destruct (matchupInsightFor_Some _ _ _ _ He)
      as (m & _ & _ & _ & _ & -> & -> & ->).
    split; intros H; apply Qlt_bool_iff in H; Lqa.lra. }
  unfold matchupAdjOf. split; intros H.
  - destruct insights as [|m ms] eqn:E; [lia|].
    apply Z.le_trans with (js_round (inject_Z 0));
      [rewrite js_round_inject_Z; lia|].
    apply js_round_mono. apply Qle_trans with (qmax (-15) 0).
    + discriminate.
    + apply qmax_mono; [apply Qle_refl|]. apply qmin_glb; [discriminate|].
      apply Qdiv_length_nonneg, fold_matchupStep_nonneg;
        [apply Qle_refl | intros i Hi; now apply Hflags | exact H].
  - destruct insights as [|m ms] eqn:E; [lia|].
    apply Z.le_trans with (js_round (inject_Z 0));
      [|rewrite js_round_inject_Z; lia].
    apply js_round_mono. apply qmax_lub; [discriminate|].
    eapply Qle_trans; [apply qmin_mono|].
    + apply Qdiv_length_nonpos, fold_matchupStep_nonpos;
        [apply Qle_refl | intros i Hi; now apply Hflags | exact H].
    + unfold qmin. cbn. apply Qle_refl.
Qed.

Lemma matchupAdj_sign_of_insights_witness :
  let opps := [sampleOpponent "A" front_runner 80] in
  0 <= matchupAdj
         (computeWinProbability (sampleSkater "Me" late_mover 70) 1 "500" opps
            (buildMatchupInsights late_mover opps
               (style_matchups sampleStrategyData))
            None).
Proof.
  cbv zeta.
  refine (proj1 (matchupAdj_sign_of_insights
                   (sampleSkater "Me" late_mover 70) 1 "500"
                   [sampleOpponent "A" front_runner 80] None late_mover
                   (style_matchups sampleStrategyData)) _).
  intros i [<- | []]. reflexivity.
Defined.

(** ** Matchup analyzer: flags *)

(** X12: no insight is flagged both advantage and disadvantage, and every
    insight records the style the analysis was made for. *)
Theorem buildMatchupInsights_flags_exclusive myStyle' opponents styleMatchups i :
  In i (buildMatchupInsights myStyle' opponents styleMatchups) ->
  advantage i && disadvantage i = false /\ myStyle i = myStyle'.
Proof.
  unfold buildMatchupInsights.
  destruct (styleMatchups myStyle') as [byStyle|]; [|intros []].
  intros Hi. destruct (collectInsights_In _ _ _ _ Hi) as (opp & _ & He).
  unfold matchupInsightFor in He.
  destruct (byStyle (o_style opp)) as [m|]; [|discriminate].
  destruct (Qle_bool 5 (sm_total m)); [|discriminate].
  injection He as <-. cbn [advantage disadvantage myStyle].
  split; [|reflexivity].
  destruct (Qlt_bool 0.55 (sm_win_rate m)) eqn:E1,
           (Qlt_bool (sm_win_rate m) 0.45) eqn:E2; try reflexivity.
  apply Qlt_bool_iff in E1, E2. exfalso. Lqa.lra.
Qed.

Lemma buildMatchupInsights_flags_exclusive_witness :
  exists i,
    In i (buildMatchupInsights late_mover
            [sampleOpponent "A" front_runner 80]
            (style_matchups sampleStrategyData))
    /\ advantage i && disadvantage i = false /\ myStyle i = late_mover.
Proof.
  eexists. split; [left; reflexivity|].
  apply (buildMatchupInsights_flags_exclusive late_mover
           [sampleOpponent "A" front_runner 80]
           (style_matchups sampleStrategyData)).
  left. reflexivity.
Defined.

(** ** Synthetic competitor builder: invariants *)

Lemma distributePasses_split (s : Style) (pm : Z) :
  0 <= pm ->
  let '(e, m, l) := distributePasses s pm in
  e + m + l = pm /\ 0 <= e /\ 0 <= m /\ 0 <= l.
Proof.
  intros H. destruct s; cbn [distributePasses];
    unfold js_round, Qfloor, Qplus, Qmult, inject_Z; cbn;
    Z.to_euclidean_division_equations; lia.
Qed.

Lemma js_round_nonneg (x : Q) : (0 <= x)%Q -> 0 <= js_round x.
Proof.
  intros H. rewrite <- (js_round_inject_Z 0). now apply js_round_mono.
Qed.

(** X13: for every input whose pass-rate slider is not negative, the
    synthetic profile has [net_passes] equal to passes made minus times
    passed, and its early, middle and late passes are non-negative and add
    up to the passes made, whatever the style. *)
Theorem buildCustomSkater_invariants input :
  (0 <= pass_rate input)%Q ->
  let st := stats (buildCustomSkater input) in
  (net_passes st == total_passes_made st - total_times_passed st)%Q
  /\ (passes_early st + passes_middle st + passes_late st
      == total_passes_made st)%Q
  /\ (0 <= passes_early st)%Q /\ (0 <= passes_middle st)%Q
  /\ (0 <= passes_late st)%Q.
Proof.
  intros Hp. cbv zeta. unfold buildCustomSkater.
  set (pm := js_round (pass_rate input * inject_Z 10)).
  assert (Hpm : 0 <= pm).
  { apply js_round_nonneg. apply Qmult_le_0_compat; [exact Hp|discriminate]. }
  pose proof (distributePasses_split (ci_style input) pm Hpm) as Hd.
  destruct (distributePasses (ci_style input) pm) as [[e m] l].
  destruct Hd as (Hsum & He & Hm & Hl).
  cbn [stats net_passes total_passes_made total_times_passed passes_early
       passes_middle passes_late].
  repeat split.
  - unfold Z.sub. now rewrite inject_Z_plus, inject_Z_opp.
  - now rewrite <- !inject_Z_plus, Hsum.
  - now rewrite <- (Zle_Qle 0).
  - now rewrite <- (Zle_Qle 0).
  - now rewrite <- (Zle_Qle 0).
Qed.

Lemma buildCustomSkater_invariants_witness :
  let st := stats (buildCustomSkater
                     (mkCustomSkaterInput "A" "CAN" "🇨🇦" mid_surge 3.7 4 35)) in
  (passes_early st + passes_middle st + passes_late st
   == total_passes_made st)%Q.
Proof.
  cbv zeta.
  refine (proj1 (proj2 (buildCustomSkater_invariants
                          (mkCustomSkaterInput "A" "CAN" "🇨🇦" mid_surge
                             3.7 4 35) _))).
  vm_compute. discriminate.
Defined.

(** ** Threat evaluator: monotonicity and rounding *)

(** X14: a higher threat score never gets a lower threat level. *)
Theorem computeThreatLevel_monotone (a b : Q) :
  (a <= b)%Q ->
  levelRank (computeThreatLevel a) <= levelRank (computeThreatLevel b).
Proof.
  intros H. unfold computeThreatLevel.
  destruct (Qle_bool 60 a) eqn:A60, (Qle_bool 30 a) eqn:A30,
           (Qle_bool 60 b) eqn:B60, (Qle_bool 30 b) eqn:B30;
    cbn; try lia; exfalso;
    repeat match goal with
           | E : Qle_bool _ _ = true |- _ => apply Qle_bool_iff in E
           | E : Qle_bool _ _ = false |- _ =>
               apply not_true_iff_false in E; rewrite Qle_bool_iff in E
           end;
    try (apply B60; Lqa.lra); try (apply B30; Lqa.lra).
Qed.

Lemma computeThreatLevel_monotone_witness :
  levelRank (computeThreatLevel 29.9) <= levelRank (computeThreatLevel 30).
Proof.
  apply computeThreatLevel_monotone. vm_compute. discriminate.
Defined.

Lemma num_or_0_eq (x : Q) : (num_or x 0 == x)%Q.
Proof.
  unfold num_or. destruct (Qeq_bool x 0) eqn:E; [|reflexivity].
  apply Qeq_bool_eq in E. now symmetry.
Qed.

Lemma computeThreatLevel_comp (x y : Q) :
  (x == y)%Q -> computeThreatLevel x = computeThreatLevel y.
Proof.
  intros H. unfold computeThreatLevel.
  now rewrite (Qle_bool_comp 60 60 x y (Qeq_refl _) H),
    (Qle_bool_comp 30 30 x y (Qeq_refl _) H).
Qed.

(** An integer is at least [k] or at most [k - 1]. *)
Lemma inject_Z_threshold (r k : Z) :
  (inject_Z k <= inject_Z r)%Q \/ (inject_Z r <= inject_Z (k - 1))%Q.
Proof.
  destruct (Z_le_gt_dec k r); [left | right]; rewrite <- Zle_Qle; lia.
Qed.

(** X15: the threat score stored in the record is within one half of the
    raw score, and the stored level is the classification of the stored
    score except when the raw score lies in [59.5, 60) or in [29.5, 30). *)
Theorem buildOpponentThreat_level_consistency skater lane :
  let t := threat_score (stats skater) in
  let o := buildOpponentThreat skater lane in
  (t - (1 # 2) < o_threat_score o <= t + (1 # 2))%Q
  /\ (threatLevel o = computeThreatLevel (o_threat_score o)
      <-> ~ ((59.5 <= t)%Q /\ (t < 60)%Q \/ (29.5 <= t)%Q /\ (t < 30)%Q)).
Proof.
  cbv zeta. unfold buildOpponentThreat. cbn [o_threat_score threatLevel].
  set (t := threat_score (stats skater)).
  rewrite (js_round_comp _ _ (num_or_0_eq t)),
    (computeThreatLevel_comp _ _ (num_or_0_eq t)).
  pose proof (Qfloor_le (t + (1 # 2))) as F1.
  pose proof (Qlt_floor (t + (1 # 2))) as F2.
  fold (js_round t) in F1, F2. rewrite inject_Z_plus in F2.
  change (inject_Z 1) with 1%Q in F2.
  destruct (inject_Z_threshold (js_round t) 60) as [H60 | H60];
    destruct (inject_Z_threshold (js_round t) 30) as [H30 | H30];
    try change (inject_Z (60 - 1)) with 59%Q in H60;
    try change (inject_Z (30 - 1)) with 29%Q in H30;
    try change (inject_Z 60) with 60%Q in H60;
    try change (inject_Z 30) with 30%Q in H30.
  all: split; [split; Lqa.lra|].
  all: unfold computeThreatLevel.
  all: destruct (Qle_bool 60 t) eqn:A60, (Qle_bool 30 t) eqn:A30,
         (Qle_bool 60 (inject_Z (js_round t))) eqn:B60,
         (Qle_bool 30 (inject_Z (js_round t))) eqn:B30.
  all: repeat match goal with
         | E : Qle_bool _ _ = true |- _ => apply Qle_bool_iff in E
         | E : Qle_bool _ _ = false |- _ =>
             apply not_true_iff_false in E; rewrite Qle_bool_iff in E;
             apply Qnot_le_lt in E
         end.
  all: try (exfalso; Lqa.lra).
  all: split; [intros He; try discriminate He; intros [[? ?] | [? ?]]; Lqa.lra
              | intros Hn; try reflexivity; exfalso; apply Hn; Lqa.lra].
Qed.

(** ** Lap plan builder: shape, phases and action classes *)

Lemma lapPlanItem_fields totalLaps hot pace style l :
  lap (lapPlanItem totalLaps hot pace style l) = l
  /\ hotspot (lapPlanItem totalLaps hot pace style l) = has hot l
  /\ phase (lapPlanItem totalLaps hot pace style l)
     = (if Qle_bool (inject_Z l / inject_Z totalLaps) 0.33 then Early
        else if Qle_bool (inject_Z l / inject_Z totalLaps) 0.67 then Mid
        else Late).
Proof.
  unfold lapPlanItem.
  match goal with
  | |- context [let '(_, _) := ?X in _] => destruct X
  end.
  repeat split.
Qed.

Lemma In_lapNumbers totalLaps l :
  In l (lapNumbers totalLaps) <-> 1 <= l <= totalLaps.
Proof.
  unfold lapNumbers. rewrite in_map_iff. split.
  - intros (k & <- & Hk). apply in_seq in Hk. lia.
  - intros Hl. exists (Z.to_nat l). split; [lia|]. apply in_seq. lia.
Qed.

Lemma In_buildLapPlan totalLaps hot pace style it :
  In it (buildLapPlan totalLaps hot pace style) <->
  exists l, 1 <= l <= totalLaps /\ it = lapPlanItem totalLaps hot pace style l.
Proof.
  unfold buildLapPlan. rewrite in_map_iff. split.
  - intros (l & <- & Hl). exists l. now rewrite <- In_lapNumbers.
  - intros (l & Hl & ->). exists l. now rewrite In_lapNumbers.
Qed.

(** X16: the plan has one item per lap (none when the lap count is below
    1); the item at position [k] is for lap [k + 1], and it is flagged as
    hotspot exactly when its lap is in the hotspot set. *)
Theorem buildLapPlan_shape totalLaps hotspotLapNums pace style :
  let plan := buildLapPlan totalLaps hotspotLapNums pace style in
  List.length plan = Z.to_nat totalLaps
  /\ (forall k it,
        nth_error plan k = Some it ->
        lap it = Z.of_nat k + 1
        /\ hotspot it = has hotspotLapNums (lap it)).
Proof.
  cbv zeta. split; [apply buildLapPlan_length|].
  intros k it Hk.
  assert (Hlt : (k < Z.to_nat totalLaps)%nat).
  { rewrite <- (buildLapPlan_length totalLaps hotspotLapNums pace style).
    apply nth_error_Some. congruence. }
  rewrite buildLapPlan_nth in Hk by exact Hlt.
  assert (E : it = lapPlanItem totalLaps hotspotLapNums pace style
                     (Z.of_nat (S k))) by congruence.
  subst it. clear Hk.
  destruct (lapPlanItem_fields totalLaps hotspotLapNums pace style
              (Z.of_nat (S k))) as (Hl & Hh & _).
  rewrite Hl, Hh. split; [lia | reflexivity].
Qed.

(** X17: an item has the action class overtake exactly when its lap is a
    hotspot that is neither the first, nor the last, nor the second-to-last
    lap. *)
Theorem buildLapPlan_overtake_iff totalLaps hotspotLapNums pace style it :
  In it (buildLapPlan totalLaps hotspotLapNums pace style) ->
  (actionClass it = overtake
   <-> hotspot it = true /\ 1 < lap it < totalLaps - 1).
Proof.
  intros Hin. apply In_buildLapPlan in Hin. destruct Hin as (l & Hl & ->).
  unfold lapPlanItem.
  destruct (Z.eqb_spec l 1), (Z.eqb_spec l totalLaps),
    (Z.eqb_spec l (totalLaps - 1));
    try (cbn [lap hotspot actionClass];
         split; [discriminate | intros [_ ?]; lia]).
  destruct (has hotspotLapNums l) eqn:Hh.
  - repeat match goal with
           | |- context [if ?c then _ else _] => destruct c
           end; cbn [lap hotspot actionClass];
      (split; [intros _; split; [reflexivity | lia] | reflexivity]).
  - repeat match goal with
           | |- context [if ?c then _ else _] => destruct c
           end; cbn [lap hotspot actionClass];
      (split; [discriminate | intros [? _]; discriminate]).
Qed.

Lemma buildLapPlan_overtake_iff_witness :
  exists it,
    In it (buildLapPlan 9 [3; 5] (mkPace 33 34 33) front_runner)
    /\ lap it = 3 /\ actionClass it = overtake.
Proof.
  exists (lapPlanItem 9 [3; 5] (mkPace 33 34 33) front_runner 3).
  assert (Hin : In (lapPlanItem 9 [3; 5] (mkPace 33 34 33) front_runner 3)
                  (buildLapPlan 9 [3; 5] (mkPace 33 34 33) front_runner))
    by (right; right; left; reflexivity).
  split; [exact Hin|]. split; [reflexivity|].
  apply (proj2 (buildLapPlan_overtake_iff 9 [3; 5] (mkPace 33 34 33)
                  front_runner _ Hin)).
  split; [reflexivity | cbn; lia].
Defined.

Lemma pct_mono (n l1 l2 : Z) :
  0 < n -> l1 <= l2 ->
  (inject_Z l1 / inject_Z n <= inject_Z l2 / inject_Z n)%Q.
Proof.
  intros Hn Hl. unfold Qdiv. apply Qmult_le_compat_r.
  - now rewrite <- Zle_Qle.
  - apply Qinv_le_0_compat. rewrite <- (Zle_Qle 0). lia.
Qed.

(** X18: along the plan the phase never goes back (Early, then Mid, then
    Late), and the final lap is in the Late phase. *)
Theorem buildLapPlan_phases_ordered totalLaps hotspotLapNums pace style :
  let plan := buildLapPlan totalLaps hotspotLapNums pace style in
  (forall i j a b,
     (i <= j)%nat -> nth_error plan i = Some a -> nth_error plan j = Some b ->
     phaseRank (phase a) <= phaseRank (phase b))
  /\ (forall z, nth_error plan (Z.to_nat (totalLaps - 1)) = Some z ->
                phase z = Late).
Proof.
  cbv zeta. split.
  - intros i j a b Hij Ha Hb.
    assert (Hj : (j < Z.to_nat totalLaps)%nat).
    { rewrite <- (buildLapPlan_length totalLaps hotspotLapNums pace style).
      apply nth_error_Some. congruence. }
    rewrite buildLapPlan_nth in Ha, Hb by lia.
    assert (Ea : a = lapPlanItem totalLaps hotspotLapNums pace style
                       (Z.of_nat (S i))) by congruence.
    assert (Eb : b = lapPlanItem totalLaps hotspotLapNums pace style
                       (Z.of_nat (S j))) by congruence.
    subst a b. clear Ha Hb.
    destruct (lapPlanItem_fields totalLaps hotspotLapNums pace style
                (Z.of_nat (S i))) as (_ & _ & ->).
    destruct (lapPlanItem_fields totalLaps hotspotLapNums pace style
                (Z.of_nat (S j))) as (_ & _ & ->).
    assert (Hp := pct_mono totalLaps (Z.of_nat (S i)) (Z.of_nat (S j))
                    ltac:(lia) ltac:(lia)).
    set (p1 := (inject_Z (Z.of_nat (S i)) / inject_Z totalLaps)%Q) in *.
    set (p2 := (inject_Z (Z.of_nat (S j)) / inject_Z totalLaps)%Q) in *.
    destruct (Qle_bool p1 0.33) eqn:A1, (Qle_bool p1 0.67) eqn:A2,
             (Qle_bool p2 0.33) eqn:B1, (Qle_bool p2 0.67) eqn:B2;
      cbn; try lia; exfalso;
      repeat match goal with
             | E : Qle_bool _ _ = true |- _ => apply Qle_bool_iff in E
             | E : Qle_bool _ _ = false |- _ =>
                 apply not_true_iff_false in E; rewrite Qle_bool_iff in E
             end;
      try (apply A1; Lqa.lra); try (apply A2; Lqa.lra).
  - intros z Hz.
    assert (Hn : (Z.to_nat (totalLaps - 1) < Z.to_nat totalLaps)%nat).
    { rewrite <- (buildLapPlan_length totalLaps hotspotLapNums pace style).
      apply nth_error_Some. congruence. }
    rewrite buildLapPlan_lap in Hz by lia.
    assert (Ez : z = lapPlanItem totalLaps hotspotLapNums pace style totalLaps)
      by congruence.
    subst z. clear Hz.
    destruct (lapPlanItem_fields totalLaps hotspotLapNums pace style
                totalLaps) as (_ & _ & ->).
    assert (H1 : (inject_Z totalLaps / inject_Z totalLaps == 1)%Q).
    { field. intros H. apply (inject_Z_injective totalLaps 0) in H. lia. }
    rewrite (Qle_bool_comp _ 1 0.33 0.33 H1 (Qeq_refl _)),
      (Qle_bool_comp _ 1 0.67 0.67 H1 (Qeq_refl _)).
    reflexivity.
Qed.

(** ** Pace bar and lap plan *)

Lemma pct_le_iff (n l : Z) (c : Q) :
  0 < n ->
  ((inject_Z l / inject_Z n <= c)%Q <-> (inject_Z l <= inject_Z n * c)%Q).
Proof.
  intros Hn.
  assert (Hq : (0 < inject_Z n)%Q) by (rewrite <- (Zlt_Qlt 0); lia).
  split; intros H.
  - rewrite Qmult_comm. apply Qmult_lt_0_le_reg_r with (/ inject_Z n)%Q.
    + now apply Qinv_lt_0_compat.
    + rewrite <- Qmult_assoc, Qmult_inv_r, Qmult_1_r;
        [exact H | intros E; rewrite E in Hq; discriminate].
  - apply Qle_shift_div_r; [exact Hq | now rewrite Qmult_comm].
Qed.

(** X19: the lap ranges printed under the pace bar and the phases of the
    lap plan are nested: a lap the plan calls Early is within the early
    range of the bar ([lap <= earlyEnd]), and a lap in the late range of the
    bar ([lap > midEnd]) is called Late by the plan. *)
Theorem paceBar_ranges_vs_plan_phases totalLaps hotspotLapNums pace style it :
  In it (buildLapPlan totalLaps hotspotLapNums pace style) ->
  (phase it = Early -> lap it <= earlyEnd totalLaps)
  /\ (midEnd totalLaps < lap it -> phase it = Late).
Proof.
  intros Hin. apply In_buildLapPlan in Hin. destruct Hin as (l & Hl & ->).
  destruct (lapPlanItem_fields totalLaps hotspotLapNums pace style l)
    as (-> & _ & ->).
  assert (Hn : 0 < totalLaps) by lia.
  split.
  - destruct (Qle_bool (inject_Z l / inject_Z totalLaps) 0.33) eqn:E.
    + intros _. apply Qle_bool_iff in E. apply pct_le_iff in E; [|exact Hn].
      unfold earlyEnd. rewrite Zle_Qle.
      eapply Qle_trans; [exact E | apply Qle_ceiling].
    + destruct (Qle_bool (inject_Z l / inject_Z totalLaps) 0.67); discriminate.
  - intros Hm. unfold midEnd in Hm. rewrite Zlt_Qlt in Hm.
    pose proof (Qle_ceiling (inject_Z totalLaps * 0.67)) as Hc.
    assert (Hq : (0 < inject_Z totalLaps)%Q) by (rewrite <- (Zlt_Qlt 0); lia).
    destruct (Qle_bool (inject_Z l / inject_Z totalLaps) 0.33) eqn:E1.
    { exfalso. apply Qle_bool_iff in E1. apply pct_le_iff in E1; [|exact Hn].
      Lqa.lra. }
    destruct (Qle_bool (inject_Z l / inject_Z totalLaps) 0.67) eqn:E2;
      [|reflexivity].
    exfalso. apply Qle_bool_iff in E2. apply pct_le_iff in E2; [|exact Hn].
    Lqa.lra.
Qed.

Lemma paceBar_ranges_vs_plan_phases_witness :
  exists it,
    In it (buildLapPlan 9 [] (mkPace 33 34 33) balanced)
    /\ lap it = 9 /\ midEnd 9 = 7 /\ phase it = Late.
Proof.
  exists (lapPlanItem 9 [] (mkPace 33 34 33) balanced 9).
  assert (Hin : In (lapPlanItem 9 [] (mkPace 33 34 33) balanced 9)
                  (buildLapPlan 9 [] (mkPace 33 34 33) balanced))
    by (do 8 right; left; reflexivity).
  split; [exact Hin|]. split; [reflexivity|]. split; [reflexivity|].
  apply (proj2 (paceBar_ranges_vs_plan_phases 9 [] (mkPace 33 34 33)
                  balanced _ Hin)).
  reflexivity.
Defined.

(** The two displays do not agree on every lap: on five laps the bar shows
    laps 1-2 as early, while the plan calls lap 2 Mid. *)
Example paceBar_plan_differ_on_5_laps :
  earlyEnd 5 = 2
  /\ map phase (buildLapPlan 5 [] (mkPace 33 34 33) balanced)
     = [Early; Mid; Mid; Late; Late].
Proof. split; reflexivity. Qed.

(** ** Chart data and lap plan *)

(** X20: the per-lap chart data has one entry per item of the lap plan,
    with the same lap numbers and the same hotspot flags; when the model has
    no lap details for the distance every entry has 0 overtakes. *)
Theorem buildLapOvertakeData_matches_plan distance strategyData
    hotspotLapNums totalLaps pace style :
  let data :=
    buildLapOvertakeData distance strategyData hotspotLapNums totalLaps in
  let plan := buildLapPlan totalLaps hotspotLapNums pace style in
  map lo_lap data = map lap plan
  /\ map isHotspot data = map hotspot plan
  /\ (lap_details strategyData distance = None ->
      forall d, In d data -> lo_overtakes d = 0%Q).
Proof.
  cbv zeta. unfold buildLapOvertakeData, buildLapPlan.
  rewrite !map_map. repeat split.
  - apply map_ext. intros l. cbn [lo_lap].
    now destruct (lapPlanItem_fields totalLaps hotspotLapNums pace style l)
      as (-> & _).
  - apply map_ext. intros l. cbn [isHotspot].
    now destruct (lapPlanItem_fields totalLaps hotspotLapNums pace style l)
      as (_ & -> & _).
  - intros Hnone d Hd. rewrite Hnone in Hd.
    apply in_map_iff in Hd. now destruct Hd as (l & <- & _).
Qed.

(** ** Orchestrator: defaults and fixed laps *)

(** X21: without aggregate models the result has no lane win rate, no
    matchup insights and no chart data; the win estimate starts from the
    default lane base 20 with matchup adjustment 0, and no lap of the plan
    is a hotspot. *)
Theorem generateStrategy_without_models (numberToString : Q -> string)
    mySkater distance lane opponents :
  let r :=
    generateStrategy numberToString mySkater distance lane opponents None in
  laneWinRate r = None
  /\ matchupInsights r = []
  /\ lapOvertakeData r = []
  /\ laneBase (winProbability r) = 20
  /\ matchupAdj (winProbability r) = 0
  /\ Forall (fun it => hotspot it = false) (lapPlan r).
Proof.
  cbv zeta. unfold generateStrategy. cbn [option_map]. cbv zeta.
  cbn [laneWinRate matchupInsights lapOvertakeData winProbability lapPlan].
  repeat split.
  apply Forall_forall. intros it Hin. apply In_buildLapPlan in Hin.
  destruct Hin as (l & _ & ->).
  now destruct (lapPlanItem_fields (totalLapsOf distance) (map h_lap [])
                  (computePace (style (stats mySkater)) distance lane
                     (sortStable
                        (fun a b =>
                           Qlt_bool (o_threat_score a) (o_threat_score b))
                        opponents))
                  (style (stats mySkater)) l) as (_ & -> & _).
Qed.

Lemma totalLapsOf_values distance :
  totalLapsOf distance = 5 \/ totalLapsOf distance = 9
  \/ totalLapsOf distance = 14.
Proof.
  unfold totalLapsOf, TOTAL_LAPS.
  destruct (String.eqb distance "500"); [now left|].
  destruct (String.eqb distance "1000"); [now right; left|].
  destruct (String.eqb distance "1500"); [now right; right | now right; left].
Qed.

(** X22: for every distance string made of decimal digits, in the lap
    table or not, the lap plan of the result has 5, 9 or 14 items, as many
    as [totalLaps] says; its first item is "Position" and its last item is
    "Sprint!". *)
Theorem generateStrategy_lap_plan (numberToString : Q -> string)
    mySkater distance lane opponents models :
  allDigits distance = true ->
  let r :=
    generateStrategy numberToString mySkater distance lane opponents models in
  (r_totalLaps r = 5 \/ r_totalLaps r = 9 \/ r_totalLaps r = 14)
  /\ Z.of_nat (List.length (lapPlan r)) = r_totalLaps r
  /\ option_map action (nth_error (lapPlan r) 0) = Some "Position"
  /\ option_map action (nth_error (lapPlan r) (List.length (lapPlan r) - 1))
     = Some "Sprint!".
Proof.
  intros _. cbv zeta. unfold generateStrategy. cbn [r_totalLaps lapPlan].
  pose proof (totalLapsOf_values distance) as Hn.
  set (n := totalLapsOf distance) in *.
  match goal with
  | |- context [buildLapPlan n ?h ?p ?s] =>
      set (hot := h); set (pace := p); set (sty := s)
  end.
  rewrite buildLapPlan_length.
  split; [exact Hn|]. split; [lia|]. split.
  - rewrite (buildLapPlan_nth n hot pace sty 0) by lia.
    unfold lapPlanItem. reflexivity.
  - replace (Z.to_nat n - 1)%nat with (Z.to_nat (n - 1)) by lia.
    rewrite (buildLapPlan_lap n hot pace sty n) by lia.
    unfold lapPlanItem.
    destruct (Z.eqb_spec n 1); [lia|]. rewrite Z.eqb_refl. reflexivity.
Qed.

Lemma generateStrategy_lap_plan_witness :
  let r :=
    generateStrategy (fun q => show_Z (Qfloor q))
      (sampleSkater "Me" late_mover 70) "3000" 2
      [sampleOpponent "A" front_runner 80] None in
  (r_totalLaps r = 5 \/ r_totalLaps r = 9 \/ r_totalLaps r = 14)
  /\ Z.of_nat (List.length (lapPlan r)) = r_totalLaps r
  /\ option_map action (nth_error (lapPlan r) 0) = Some "Position"
  /\ option_map action (nth_error (lapPlan r) (List.length (lapPlan r) - 1))
     = Some "Sprint!".
Proof.
  exact (generateStrategy_lap_plan (fun q => show_Z (Qfloor q))
           (sampleSkater "Me" late_mover 70) "3000" 2
           [sampleOpponent "A" front_runner 80] None eq_refl).
Defined.

(** ** List filters *)

Lemma Category_beq_iff (a b : Category) : Category_beq a b = true <-> a = b.
Proof. destruct a, b; cbn; split; congruence. Qed.

Lemma Gender_beq_iff (a b : Gender) : Gender_beq a b = true <-> a = b.
Proof. destruct a, b; cbn; split; congruence. Qed.

Lemma rejects_false_iff {B : Type} (eqb : B -> B -> bool)
    (sel : Selection B) (x : B) :
  (forall a b, eqb a b = true <-> a = b) ->
  (rejects eqb sel x = false <-> selected sel x).
Proof.
  intros Heq. destruct sel as [|a]; cbn; [tauto|].
  rewrite negb_false_iff. apply Heq.
Qed.

Section FilterProperties.

Context {A : Type}.
Variable category : A -> Category.
Variable gender : A -> Gender.
Variable distance : A -> Z.

(** X23: an event filter keeps exactly the items of the list whose
    category, gender and distance each pass the corresponding selection,
    and with all three selections set to 'all' it returns the list
    unchanged. *)
Theorem filterHeats_keeps (heats : list A) (filters : EventFilters) :
  (forall h,
     In h (filterHeats category gender distance heats filters) <->
     In h heats
     /\ selected (ef_category filters) (category h)
     /\ selected (ef_gender filters) (gender h)
     /\ selected (ef_distance filters) (distance h))
  /\ filterHeats category gender distance heats (mkEventFilters all all all)
     = heats.
Proof.
  split.
  - intros h. unfold filterHeats. rewrite filter_In.
    rewrite <- (rejects_false_iff Category_beq _ _ Category_beq_iff),
      <- (rejects_false_iff Gender_beq _ _ Gender_beq_iff),
      <- (rejects_false_iff Z.eqb _ _ Z.eqb_eq).
    destruct (rejects Category_beq (ef_category filters) (category h)),
      (rejects Gender_beq (ef_gender filters) (gender h)),
      (rejects Z.eqb (ef_distance filters) (distance h));
      intuition congruence.
  - unfold filterHeats. cbn.
    induction heats as [|h t IH]; cbn; [reflexivity | now rewrite IH].
Qed.

Lemma filter_twice (f g : A -> bool) (l : list A) :
  filter f (filter g l) = filter (fun x => g x && f x) l.
Proof.
  induction l as [|x l IH]; cbn; [reflexivity|].
  destruct (g x); cbn; [destruct (f x)|]; now rewrite IH.
Qed.

(** X24: filtering by category, then by gender, then by distance, one
    criterion at a time, gives the same list as filtering by the three at
    once. *)
Theorem filterHeats_one_at_a_time (heats : list A) c g d :
  filterHeats category gender distance
    (filterHeats category gender distance
       (filterHeats category gender distance heats
          (mkEventFilters c all all))
       (mkEventFilters all g all))
    (mkEventFilters all all d)
  = filterHeats category gender distance heats (mkEventFilters c g d).
Proof.
  unfold filterHeats. rewrite !filter_twice. apply filter_ext.
  intros h. cbn.
  destruct (rejects Category_beq c (category h)),
    (rejects Gender_beq g (gender h)), (rejects Z.eqb d (distance h));
    reflexivity.
Qed.

(** X25: the skaters offered on the Race Prep page are those
    [filterSkaters] keeps for the same category and any gender. *)
Theorem racePrepSkaters_is_filterSkaters (skaters : list A) cat :
  racePrepSkaters category skaters cat
  = filterSkaters category gender skaters (mkSkaterFilters cat all).
Proof.
  unfold racePrepSkaters, filterSkaters. destruct cat as [|c]; cbn.
  - induction skaters as [|s t IH]; cbn; [reflexivity | now rewrite <- IH].
  - apply filter_ext. intros s. now destruct (Category_beq (category s) c).
Qed.

End FilterProperties.

(** Heats as (category, gender, distance) triples: only the junior women's
    500 m heat passes the filter. *)
Example filterHeats_sample :
  filterHeats (fun h => fst (fst h)) (fun h => snd (fst h)) snd
    [(senior, Men, 500); (junior, Women, 500); (junior, Women, 1000)]
    (mkEventFilters (only junior) all (only 500))
  = [(junior, Women, 500)].
Proof. reflexivity. Qed.

(** ** Pace planner: order of the opponents *)

Lemma fold_threat_sum (l : list OpponentThreat) (acc : Q) :
  (fold_left (fun s o => s + num_or (o_threat_score o) 0) l acc
   == acc + Qsum (map (fun o => num_or (o_threat_score o) 0) l))%Q.
Proof.
  revert acc. induction l as [|o os IH]; intros acc;
    cbn [fold_left map Qsum fold_right].
  - ring.
  - rewrite IH. fold (Qsum (map (fun o => num_or (o_threat_score o) 0) os)).
    ring.
Qed.

Lemma Qsum_perm (l1 l2 : list Q) :
  Permutation l1 l2 -> (Qsum l1 == Qsum l2)%Q.
Proof.
  induction 1 as [|x l l' _ IH|x y l|l l' l'' _ IH1 _ IH2]; cbn.
  - reflexivity.
  - fold (Qsum l) (Qsum l'). now rewrite IH.
  - fold (Qsum l). ring.
  - now rewrite IH1.
Qed.

Lemma avgThreat_perm (l1 l2 : list OpponentThreat) :
  Permutation l1 l2 -> (avgThreat l1 == avgThreat l2)%Q.
Proof.
  intros H. unfold avgThreat.
  rewrite !fold_threat_sum, (Permutation_length H).
  rewrite (Qsum_perm _ _ (Permutation_map _ H)). reflexivity.
Qed.

Lemma fieldAdjust_perm (l1 l2 : list OpponentThreat) (p : Pace) :
  Permutation l1 l2 -> fieldAdjust l1 p = fieldAdjust l2 p.
Proof.
  intros H. pose proof (avgThreat_perm _ _ H) as Ha.
  destruct l1 as [|a l1], l2 as [|b l2].
  - reflexivity.
  - apply Permutation_nil in H. discriminate.
  - apply Permutation_sym, Permutation_nil in H. discriminate.
  - cbn [fieldAdjust]. unfold Qlt_bool.
    now rewrite (Qle_bool_comp _ _ 50 50 Ha (Qeq_refl _)),
      (Qle_bool_comp 25 25 _ _ (Qeq_refl _) Ha).
Qed.

(** X26: for opponents whose threat scores are integers between 0 and 100,
    as [buildOpponentThreat] stores them, the pace does not depend on the
    order in which they are listed. *)
Theorem computePace_order_independent_integer_scores style distance lane
    opponents1 opponents2 :
  Forall (fun o => exists z : Z,
            o_threat_score o = inject_Z z /\ 0 <= z <= 100) opponents1 ->
  Permutation opponents1 opponents2 ->
  computePace style distance lane opponents1
  = computePace style distance lane opponents2.
Proof.
  intros _ H. unfold computePace, rawPace.
  now rewrite (fieldAdjust_perm _ _ _ H).
Qed.

Lemma computePace_order_independent_integer_scores_witness :
  computePace mid_surge "1500" 4
    [sampleOpponent "A" balanced 90; sampleOpponent "B" balanced 30]
  = computePace mid_surge "1500" 4
      [sampleOpponent "B" balanced 30; sampleOpponent "A" balanced 90].
Proof.
  apply computePace_order_independent_integer_scores.
  - constructor; [exists 90; split; [reflexivity | lia]|].
    constructor; [exists 30; split; [reflexivity | lia]|]. constructor.
  - apply perm_swap.
Defined.

(** ** Orchestrator without opponents; overtake timing *)

Lemma js_round_clamp_inject_Z (lo hi z : Z) :
  js_round (qmax (inject_Z lo) (qmin (inject_Z hi) (inject_Z z)))
  = Z.max lo (Z.min hi z).
Proof.
  unfold qmax, qmin.
  destruct (Qle_bool (inject_Z hi) (inject_Z z)) eqn:E1.
  - apply Qle_bool_iff in E1. rewrite <- Zle_Qle in E1.
    destruct (Qle_bool (inject_Z lo) (inject_Z hi)) eqn:E2.
    + apply Qle_bool_iff in E2. rewrite <- Zle_Qle in E2.
      rewrite js_round_inject_Z. lia.
    + apply not_true_iff_false in E2. rewrite Qle_bool_iff, <- Zle_Qle in E2.
      rewrite js_round_inject_Z. lia.
  - apply not_true_iff_false in E1. rewrite Qle_bool_iff, <- Zle_Qle in E1.
    destruct (Qle_bool (inject_Z lo) (inject_Z z)) eqn:E2.
    + apply Qle_bool_iff in E2. rewrite <- Zle_Qle in E2.
      rewrite js_round_inject_Z. lia.
    + apply not_true_iff_false in E2. rewrite Qle_bool_iff, <- Zle_Qle in E2.
      rewrite js_round_inject_Z. lia.
Qed.

(** X27: a strategy generated without opponents has no matchup insights,
    no strength and no matchup adjustment; its win estimate is the lane base
    clamped to [1, 99], and its explanation says that only the lane was
    used. *)
Theorem generateStrategy_without_opponents (numberToString : Q -> string)
    mySkater distance lane models :
  let r := generateStrategy numberToString mySkater distance lane [] models in
  let wp := winProbability r in
  opponentThreats r = []
  /\ matchupInsights r = []
  /\ hasOpponents wp = false
  /\ strengthAdj wp = 0
  /\ matchupAdj wp = 0
  /\ overall wp = Z.max 1 (Z.min 99 (laneBase wp))
  /\ explanation wp
     = "Lane " ++ show_Z lane ++ " base only (no opponents selected)".
Proof.
  cbv zeta. unfold generateStrategy.
  cbn [opponentThreats matchupInsights winProbability sortStable fold_right].
  assert (Hins : forall s t, buildMatchupInsights s [] t = []).
  { intros s t. unfold buildMatchupInsights. now destruct (t s). }
  rewrite !Hins. unfold computeWinProbability.
  cbn [hasOpponents strengthAdj matchupAdj overall laneBase explanation
       avgOppStrengthOf matchupAdjOf List.length].
  rewrite strengthAdjOf_zero by ring.
  repeat split.
  rewrite !Z.add_0_r. apply (js_round_clamp_inject_Z 1 99).
Qed.

(** X28: the overtake-timing tip is absent exactly when the timing table is
    empty; otherwise it is the single item built from an entry of the table
    whose count no other entry exceeds. *)
Theorem timingAdvice_reports_busiest_stage (numberToString : Q -> string)
    distance timing :
  (timingAdvice numberToString distance timing = [] <-> timing = [])
  /\ (timing <> [] ->
      exists stage data,
        In (stage, data) timing
        /\ (forall e, In e timing -> (count (snd e) <= count data)%Q)
        /\ timingAdvice numberToString distance timing
           = [mkAdviceItem "⏱️"
                ("Most overtakes in " ++ distance ++ "m happen in the "
                 ++ match stageLabels stage with
                    | Some l => l
                    | None => stage
                    end
                 ++ " (" ++ numberToString (pct data)
                 ++ "%) — plan your moves for that window.")]).
Proof.
  unfold timingAdvice.
  pose proof (sortStable_perm
                (fun a b : string * TimingEntry =>
                   Qlt_bool (count (snd a)) (count (snd b))) timing) as Hp.
  destruct (sortStable _ timing) as [|[stage data] rest] eqn:E.
  - apply Permutation_nil in Hp. subst timing.
    split; [tauto | congruence].
  - split.
    + split; [discriminate|]. intros ->. discriminate.
    + intros _. exists stage, data. split; [|split; [|reflexivity]].
      * apply (Permutation_in _ Hp). now left.
      * intros e He.
        apply (sortStable_head_max (fun e => count (snd e)) timing
                 (stage, data) rest e E He).
Qed.

Lemma timingAdvice_reports_busiest_stage_witness :
  let timing := [("early", mkTimingEntry 30 25);
                 ("middle", mkTimingEntry 50 41.7);
                 ("late", mkTimingEntry 40 33.3)] in
  exists stage data,
    In (stage, data) timing
    /\ (forall e, In e timing -> (count (snd e) <= count data)%Q)
    /\ List.length (timingAdvice (fun q => show_Z (Qfloor q)) "500" timing)
       = 1%nat.
Proof.
  cbv zeta.
  destruct (proj2 (timingAdvice_reports_busiest_stage
                     (fun q => show_Z (Qfloor q)) "500"
                     [("early", mkTimingEntry 30 25);
                      ("middle", mkTimingEntry 50 41.7);
                      ("late", mkTimingEntry 40 33.3)])
              ltac:(discriminate))
    as (stage & data & Hin & Hmax & Htext).
  exists stage, data. split; [exact Hin|]. split; [exact Hmax|].
  now rewrite Htext.
Defined.
